(** * Double-probing self-attention classifier: a shallow embedding of
    [src/core/model.py] and the properties its specification states.

    The Python module defines [DpsaModel] (an [nn.Module] whose [forward]
    runs a split pretrained transformer over a premise/hypothesis pair)
    and [DpsaLightningModule] (the training harness).  The torch and
    transformers building blocks are external: what they compute on
    floating-point tensors is kept abstract (scalar operations, the
    transformer stacks, the GRU cell, the random part of dropout), while
    everything [model.py] itself does — the order of the calls, which
    tensor goes where, the indexing, the concatenation, the dictionaries
    it builds — is written out. *)

From Stdlib Require Import ZArith QArith Qcanon List Bool Lia.
From stdpp Require Import base option list strings gmap.

Local Open Scope Z_scope.
Local Open Scope nat_scope.
Local Open Scope list_scope.

(** ** Python exceptions and the state/exception monad *)

(** The exception classes that can surface from the modelled code.
    [ConfigurationError] and [ShapeError] are the names the specification
    uses in its error taxonomy; neither is defined in [model.py]. *)
Inductive exception : Type :=
| RuntimeError
| IndexError
| ValueError
| ConfigurationError
| ShapeError.

Inductive result (A : Type) : Type :=
| Ok (a : A)
| Raise (e : exception).
Arguments Ok {A} a.
Arguments Raise {A} e.

(** A computation over a mutable state [S] that may raise: the state
    reached when the exception is raised is kept, as in Python. *)
Definition M (S A : Type) : Type := S -> result A * S.

Definition ret {S A} (a : A) : M S A := fun s => (Ok a, s).

Definition raise {S A} (e : exception) : M S A := fun s => (Raise e, s).

Definition bind {S A B} (m : M S A) (k : A -> M S B) : M S B :=
  fun s => match m s with
           | (Ok a, s') => k a s'
           | (Raise e, s') => (Raise e, s')
           end.

Definition result_bind {A B} (r : result A) (k : A -> result B) : result B :=
  match r with Ok a => k a | Raise e => Raise e end.

Definition lift_result {S A} (r : result A) : M S A := fun s => (r, s).

Notation "'let*' x ':=' m 'in' k" := (bind m (fun x => k))
  (at level 10, x name, m at level 100, k at level 200).
Notation "'let*' ' pat ':=' m 'in' k" :=
  (bind m (fun x => match x with pat => k end))
  (at level 10, pat pattern, m at level 100, k at level 200).

(** Run a computation of a component on the component's part of the state. *)
Definition zoom {S T A} (get : S -> T) (set : T -> S -> S) (m : M T A) : M S A :=
  fun s => let (r, t') := m (get s) in (r, set t' s).

Fixpoint result_mapM {A B} (f : A -> result B) (l : list A) : result (list B) :=
  match l with
  | [] => Ok []
  | x :: l' =>
      match f x with
      | Raise e => Raise e
      | Ok y => match result_mapM f l' with
                | Raise e => Raise e
                | Ok ys => Ok (y :: ys)
                end
      end
  end.

(** ** Scalars and tensors *)

(** The element type of floating-point tensors with the operations the
    model uses.  No algebraic law is assumed of them. *)
Class Scalar (R : Type) : Type := {
  zero : R;
  one : R;
  add : R -> R -> R;
  mul : R -> R -> R;
  div : R -> R -> R;
  ltb : R -> R -> bool;
  leb : R -> R -> bool;
  of_nat : nat -> R
}.

(** Tensors as nested lists, outermost axis first. *)
Abbreviation Vec R := (list R) (only parsing).
Abbreviation Tensor2 R := (list (list R)) (only parsing).
Abbreviation Tensor3 R := (list (list (list R))) (only parsing).
Abbreviation IntTensor1 := (list Z) (only parsing).
Abbreviation IntTensor2 := (list (list Z)) (only parsing).

(** [shape2 x b h]: [x] is a (b, h) tensor; [shape3 x b t h]: a (b, t, h) one. *)
Definition shape2 {A} (x : list (list A)) (b h : nat) : Prop :=
  length x = b /\ Forall (fun row => length row = h) x.

Definition shape3 {A} (x : list (list (list A))) (b t h : nat) : Prop :=
  length x = b /\ Forall (fun seq => shape2 seq t h) x.

Section Torch.
Context {R : Type} `{Scalar R}.

(** [torch.cat([a, b], dim=-1)] on two 2-D tensors: the sizes along
    axis 0 must agree, rows are joined feature-wise. *)
Definition torch_cat (a b : Tensor2 R) : result (Tensor2 R) :=
  if Nat.eqb (length a) (length b)
  then Ok (zip_with (fun u v => u ++ v) a b)
  else Raise RuntimeError.

Definition dot (w x : Vec R) : R :=
  fold_left (fun acc wx => add acc (mul (fst wx) (snd wx))) (combine w x) zero.

(** [x[:, -1, :]] on a 3-D tensor: the entry at the last index of
    axis 1 in every batch row; indexing an empty axis raises. *)
Definition select_last (x : Tensor3 R) : result (Tensor2 R) :=
  result_mapM (fun seq => match last seq with
                          | Some v => Ok v
                          | None => Raise IndexError
                          end) x.

(** [torch.argmax(row)]: index of the first maximal entry. *)
Fixpoint argmax_from (best_i : nat) (best : R) (i : nat) (xs : Vec R) : nat :=
  match xs with
  | [] => best_i
  | x :: xs' =>
      if ltb best x then argmax_from i x (S i) xs'
      else argmax_from best_i best (S i) xs'
  end.

Definition argmax (row : Vec R) : result nat :=
  match row with
  | [] => Raise IndexError
  | x :: xs => Ok (argmax_from 0 x 1 xs)
  end.

(** [torch.argmax(logits, dim=-1)] *)
Definition torch_argmax (logits : Tensor2 R) : result (list nat) :=
  result_mapM argmax logits.

Definition index_eqb (p : nat) (l : Z) : bool := Z.eqb (Z.of_nat p) l.

(** [prediction == label] on 1-D tensors, with broadcasting of a
    length-one operand. *)
Definition tensor_eq (prediction : list nat) (label : IntTensor1) : result (list bool) :=
  if Nat.eqb (length prediction) (length label)
  then Ok (zip_with index_eqb prediction label)
  else match prediction, label with
       | [p], _ => Ok (map (index_eqb p) label)
       | _, [l] => Ok (map (fun p => index_eqb p l) prediction)
       | _, _ => Raise RuntimeError
       end.

(** [.float()] on a boolean tensor. *)
Definition tensor_float (b : list bool) : Vec R :=
  map (fun x : bool => if x then one else zero) b.

Definition tensor_sum (x : Vec R) : R := fold_left add x zero.

(** [.mean()] on a 1-D tensor: the sum divided by the element count. *)
Definition tensor_mean (x : Vec R) : R := div (tensor_sum x) (of_nat (length x)).

End Torch.

(** [p] is the position of the first maximal entry of [row]. *)
Definition first_argmax {R} `{Scalar R} (row : Vec R) (p : nat) : Prop :=
  exists v, row !! p = Some v /\
    (forall j u, row !! j = Some u -> ltb v u = false) /\
    (forall j u, j < p -> row !! j = Some u -> ltb u v = true).

(** Example by example, 1 where the predicted class is the label and 0
    where it is not. *)
Definition hit_indicator {R} `{Scalar R} (prediction : list nat) (label : IntTensor1)
    : Vec R :=
  zip_with (fun p l => if decide (Z.of_nat p = l) then one else zero)
           prediction label.

(** ** The external building blocks *)

(** A stack of transformer layers cut out of a pretrained encoder.
    [cross_attention] records whether the layers were set up to attend
    onto another sequence's hidden states. *)
Record Stack (layer : Type) : Type := {
  stack_layers : list layer;
  cross_attention : bool
}.
Arguments stack_layers {layer} _.
Arguments cross_attention {layer} _.

(** What [from_pretrained] resolves a model identifier to. *)
Record PretrainedEncoder (layer : Type) : Type := {
  encoder_layers : list layer;
  cross_capable : bool
}.
Arguments encoder_layers {layer} _.
Arguments cross_capable {layer} _.

(** [AutoConfig]: only [hidden_size] is read by [model.py]. *)
Record Config : Type := { hidden_size : nat }.

(** [nn.GRU], [nn.Dropout], [nn.Linear]: their hyper-parameters and weights. *)
Record GRU (R W : Type) : Type := {
  gru_input_size : nat;
  gru_hidden_size : nat;
  gru_weights : list W;
  gru_dropout : R
}.
Arguments gru_input_size {R W} _.
Arguments gru_hidden_size {R W} _.
Arguments gru_weights {R W} _.
Arguments gru_dropout {R W} _.

Record Dropout (R : Type) : Type := { dropout_p : R }.
Arguments dropout_p {R} _.

Record Linear (R : Type) : Type := {
  in_features : nat;
  weight : Tensor2 R;
  bias : Vec R
}.
Arguments in_features {R} _.
Arguments weight {R} _.
Arguments bias {R} _.

(** Everything the module takes from torch and transformers without
    defining it: the scalar type, the random generator, the transformer
    stacks' forward passes, one step of a GRU layer, dropout sampling in
    training mode, the loss, and the constructors of randomly
    initialised or pretrained parts.

    A stack's forward pass runs on the stack and the generator and may
    change either; [training] is the module's mode flag. *)
Class Backend : Type := {
  scalar : Type;
  scalar_ops :: Scalar scalar;
  generator : Type;
  layer : Type;
  cell_weights : Type;
  (** [stack(input_ids=..., attention_mask=...).last_hidden_state] *)
  encoder_forward :
    bool -> IntTensor2 -> IntTensor2 ->
    M (Stack layer * generator) (Tensor3 scalar);
  (** [stack(hidden_states=..., encoder_hidden_states=...,
      encoder_attention_mask=...).last_hidden_state] *)
  decoder_forward :
    bool -> Tensor3 scalar -> Tensor3 scalar -> IntTensor2 ->
    M (Stack layer * generator) (Tensor3 scalar);
  (** one time step of one GRU layer: input, previous state, new state *)
  gru_cell : cell_weights -> Vec scalar -> Vec scalar -> Vec scalar;
  (** [F.dropout(x, p, training=True)] *)
  dropout_train : scalar -> Tensor3 scalar -> generator -> Tensor3 scalar * generator;
  (** [nn.CrossEntropyLoss()(logits, label)] *)
  cross_entropy : Tensor2 scalar -> IntTensor1 -> result scalar;
  (** the pretrained encoder behind a model identifier, if it resolves *)
  load_pretrained : string -> option (PretrainedEncoder layer);
  AutoConfig_from_pretrained : string -> result Config;
  GRU_init : nat -> nat -> nat -> scalar -> M generator (GRU scalar cell_weights);
  Dropout_init : scalar -> result (Dropout scalar);
  Linear_init : nat -> nat -> M generator (Linear scalar)
}.

Section Modules.
Context `{Backend}.

(** [nn.Dropout.forward]: the identity in evaluation mode. *)
Definition Dropout_forward (d : Dropout scalar) (training : bool)
    (x : Tensor3 scalar) : M generator (Tensor3 scalar) :=
  if training then fun g => let (y, g') := dropout_train (dropout_p d) x g in (Ok y, g')
  else ret x.

(** The states of one GRU layer along one sequence, from state [h]. *)
Fixpoint gru_scan (w : cell_weights) (h : Vec scalar) (xs : Tensor2 scalar)
    : Tensor2 scalar :=
  match xs with
  | [] => []
  | x :: xs' => let h' := gru_cell w x h in h' :: gru_scan w h' xs'
  end.

(** [gru_cell] as a step function to fold over a sequence. *)
Definition run_cell (w : cell_weights) (h : Vec scalar) (x : Vec scalar) : Vec scalar :=
  gru_cell w x h.

(** One GRU layer over a batch, from the zero state. *)
Definition gru_layer (w : cell_weights) (hidden : nat) (x : Tensor3 scalar)
    : Tensor3 scalar :=
  map (gru_scan w (repeat zero hidden)) x.

(** The state a layer ends in: its last output, the initial state for an
    empty sequence. *)
Definition gru_final (hidden : nat) (y : Tensor3 scalar) : Tensor2 scalar :=
  map (fun states => default (repeat zero hidden) (last states)) y.

(** The layers bottom-up; dropout sits between consecutive layers (not
    after the top one) and is active in training mode only.  Returns the
    top layer's states at every position and every layer's final state. *)
Fixpoint gru_layers (p : scalar) (training : bool) (hidden : nat)
    (ws : list cell_weights) (x : Tensor3 scalar)
    : M generator (Tensor3 scalar * list (Tensor2 scalar)) :=
  match ws with
  | [] => ret (x, [])
  | w :: ws' =>
      let y := gru_layer w hidden x in
      match ws' with
      | [] => ret (y, [gru_final hidden y])
      | _ :: _ =>
          let* y' := Dropout_forward {| dropout_p := p |} training y in
          let* '(out, h_n) := gru_layers p training hidden ws' y' in
          ret (out, gru_final hidden y :: h_n)
      end
  end.

(** What [nn.GRU] accepts: every sequence has at least one position and
    every vector has the layer's input size. *)
Definition gru_input_ok (input_size : nat) (x : Tensor3 scalar) : bool :=
  forallb (fun seq : Tensor2 scalar =>
             negb (Nat.eqb (length seq) 0) &&
             forallb (fun v : Vec scalar => Nat.eqb (length v) input_size) seq) x.

(** [nn.GRU.forward(x)] with [batch_first=True] and no initial state:
    the pair [(output, h_n)]; an input it does not accept raises
    [RuntimeError]. *)
Definition GRU_forward (r : GRU scalar cell_weights) (training : bool)
    (x : Tensor3 scalar) : M generator (Tensor3 scalar * list (Tensor2 scalar)) :=
  if gru_input_ok (gru_input_size r) x
  then gru_layers (gru_dropout r) training (gru_hidden_size r) (gru_weights r) x
  else raise RuntimeError.

(** [nn.Linear.forward]: one affine map applied to every row. *)
Definition Linear_forward (l : Linear scalar) (x : Tensor2 scalar)
    : result (Tensor2 scalar) :=
  if forallb (fun row : Vec scalar => Nat.eqb (length row) (in_features l)) x
  then Ok (map (fun row => zip_with (fun w b => add (dot w row) b) (weight l) (bias l)) x)
  else Raise RuntimeError.

End Modules.

(** ** [DpsaModel] *)

Section DpsaModel.
Context `{Backend}.

Record DpsaModel : Type := {
  base_model : Stack layer;
  cross_model : Stack layer;
  reducer : GRU scalar cell_weights;
  dropout : Dropout scalar;
  linear : Linear scalar;
  training : bool
}.

Definition set_base_model (s : Stack layer) (self : DpsaModel) : DpsaModel :=
  {| base_model := s; cross_model := cross_model self; reducer := reducer self;
     dropout := dropout self; linear := linear self; training := training self |}.

Definition set_cross_model (s : Stack layer) (self : DpsaModel) : DpsaModel :=
  {| base_model := base_model self; cross_model := s; reducer := reducer self;
     dropout := dropout self; linear := linear self; training := training self |}.

(** Modelled from the spec: [slice_transformers] of [utils], which
    [model.py] imports and whose source is not available.  It loads the
    pretrained encoder, rejects with [ConfigurationError] an identifier
    that does not resolve, a pivot outside [0 < pivot < num_layers] and
    an architecture that cannot be set up for cross-attention, and
    otherwise cuts the layer list at [pivot]: [layers[0:pivot)] becomes
    the base stack, [layers[pivot:end)] the cross stack. *)
Definition slice_transformers (model_name : string) (pivot : Z)
    : result (Stack layer * Stack layer) :=
  match load_pretrained model_name with
  | None => Raise ConfigurationError
  | Some enc =>
      let layers := encoder_layers enc in
      if negb (Z.ltb 0 pivot && Z.ltb pivot (Z.of_nat (length layers)))
      then Raise ConfigurationError
      else if negb (cross_capable enc)
      then Raise ConfigurationError
      else Ok ({| stack_layers := take (Z.to_nat pivot) layers;
                  cross_attention := false |},
               {| stack_layers := drop (Z.to_nat pivot) layers;
                  cross_attention := true |})
  end.

(** [DpsaModel.__init__]; a fresh [nn.Module] is in training mode. *)
Definition DpsaModel_init (model_name : string) (pivot : Z)
    (dropout_reducer : scalar) (num_layer_reducer num_class : nat)
    : M generator DpsaModel :=
  let* '(base, cross) := lift_result (slice_transformers model_name pivot) in
  let* config := lift_result (AutoConfig_from_pretrained model_name) in
  let* gru := GRU_init (hidden_size config) (hidden_size config)
                       num_layer_reducer dropout_reducer in
  let* drop := lift_result (Dropout_init dropout_reducer) in
  let* lin := Linear_init (2 * hidden_size config) num_class in
  ret {| base_model := base; cross_model := cross; reducer := gru;
         dropout := drop; linear := lin; training := true |}.

(** The calls [forward] makes on the parts of [self].  The state is the
    model together with the generator. *)
Definition call_base_model (input_ids attention_mask : IntTensor2)
    : M (DpsaModel * generator) (Tensor3 scalar) :=
  fun w =>
    zoom (fun w => (base_model (fst w), snd w))
         (fun t w => (set_base_model (fst t) (fst w), snd t))
         (encoder_forward (training (fst w)) input_ids attention_mask) w.

Definition call_cross_model (hidden_states encoder_hidden_states : Tensor3 scalar)
    (encoder_attention_mask : IntTensor2)
    : M (DpsaModel * generator) (Tensor3 scalar) :=
  fun w =>
    zoom (fun w => (cross_model (fst w), snd w))
         (fun t w => (set_cross_model (fst t) (fst w), snd t))
         (decoder_forward (training (fst w)) hidden_states encoder_hidden_states
                          encoder_attention_mask) w.

Definition with_generator {A} (m : DpsaModel -> M generator A)
    : M (DpsaModel * generator) A :=
  fun w => zoom snd (fun g w => (fst w, g)) (m (fst w)) w.

Definition call_dropout (x : Tensor3 scalar) : M (DpsaModel * generator) (Tensor3 scalar) :=
  with_generator (fun self => Dropout_forward (dropout self) (training self) x).

Definition call_reducer (x : Tensor3 scalar)
    : M (DpsaModel * generator) (Tensor3 scalar * list (Tensor2 scalar)) :=
  with_generator (fun self => GRU_forward (reducer self) (training self) x).

Definition call_linear (x : Tensor2 scalar) : M (DpsaModel * generator) (Tensor2 scalar) :=
  with_generator (fun self => lift_result (Linear_forward (linear self) x)).

(** [self.reducer(x)[0][:, -1, :]] *)
Definition pooler (x : Tensor3 scalar) : M (DpsaModel * generator) (Tensor2 scalar) :=
  let* out := call_reducer x in
  lift_result (select_last (fst out)).

(** [DpsaModel.forward] *)
Definition forward
    (premise_input_ids premise_attention_mask
     hypothesis_input_ids hypothesis_attention_mask : IntTensor2)
    : M (DpsaModel * generator) (Tensor2 scalar) :=
  let* premise_hidden_state :=
    call_base_model premise_input_ids premise_attention_mask in
  let* hypothesis_hidden_state :=
    call_base_model hypothesis_input_ids hypothesis_attention_mask in
  let* premise_hypothesis :=
    call_cross_model premise_hidden_state hypothesis_hidden_state
                     hypothesis_attention_mask in
  let* hypothesis_premise :=
    call_cross_model hypothesis_hidden_state premise_hidden_state
                     premise_attention_mask in
  let* premise_hypothesis := call_dropout premise_hypothesis in
  let* hypothesis_premise := call_dropout hypothesis_premise in
  let* premise_hypothesis_pooler := pooler premise_hypothesis in
  let* hypothesis_premise_pooler := pooler hypothesis_premise in
  let* output :=
    lift_result (torch_cat premise_hypothesis_pooler hypothesis_premise_pooler) in
  let* output := call_linear output in
  ret output.

(** The part of [forward] up to the two pooled vectors (lines 40 to 63):
    the premise-attending-to-hypothesis vector and the
    hypothesis-attending-to-premise vector, in this order. *)
Definition pooled_vectors
    (premise_input_ids premise_attention_mask
     hypothesis_input_ids hypothesis_attention_mask : IntTensor2)
    : M (DpsaModel * generator) (Tensor2 scalar * Tensor2 scalar) :=
  let* premise_hidden_state :=
    call_base_model premise_input_ids premise_attention_mask in
  let* hypothesis_hidden_state :=
    call_base_model hypothesis_input_ids hypothesis_attention_mask in
  let* premise_hypothesis :=
    call_cross_model premise_hidden_state hypothesis_hidden_state
                     hypothesis_attention_mask in
  let* hypothesis_premise :=
    call_cross_model hypothesis_hidden_state premise_hidden_state
                     premise_attention_mask in
  let* premise_hypothesis := call_dropout premise_hypothesis in
  let* hypothesis_premise := call_dropout hypothesis_premise in
  let* premise_hypothesis_pooler := pooler premise_hypothesis in
  let* hypothesis_premise_pooler := pooler hypothesis_premise in
  ret (premise_hypothesis_pooler, hypothesis_premise_pooler).

(** The part of [forward] up to the two dropped-out hidden-state
    sequences (lines 40 to 60); the attention masks are used here and
    nowhere later. *)
Definition dropped_states
    (premise_input_ids premise_attention_mask
     hypothesis_input_ids hypothesis_attention_mask : IntTensor2)
    : M (DpsaModel * generator) (Tensor3 scalar * Tensor3 scalar) :=
  let* premise_hidden_state :=
    call_base_model premise_input_ids premise_attention_mask in
  let* hypothesis_hidden_state :=
    call_base_model hypothesis_input_ids hypothesis_attention_mask in
  let* premise_hypothesis :=
    call_cross_model premise_hidden_state hypothesis_hidden_state
                     hypothesis_attention_mask in
  let* hypothesis_premise :=
    call_cross_model hypothesis_hidden_state premise_hidden_state
                     premise_attention_mask in
  let* premise_hypothesis := call_dropout premise_hypothesis in
  let* hypothesis_premise := call_dropout hypothesis_premise in
  ret (premise_hypothesis, hypothesis_premise).

(** The classifier head on two pooled vectors joined in the given order. *)
Definition classify (first second : Tensor2 scalar)
    : M (DpsaModel * generator) (Tensor2 scalar) :=
  let* output := lift_result (torch_cat first second) in
  call_linear output.

(** A computation that leaves the model as it found it. *)
Definition preserves_model {A} (m : M (DpsaModel * generator) A) : Prop :=
  forall w, fst (snd (m w)) = fst w.

End DpsaModel.

(** ** [DpsaLightningModule] *)

(** Optimizer classes of [torch.optim]. *)
Inductive optimizer_class : Type := Adam | AdamW | SGD | RMSprop.

(** The module-level registry [OPTMIZER_DIC = {"Adam": optim.Adam}]. *)
Definition OPTMIZER_DIC : gmap string optimizer_class := {[ "Adam"%string := Adam ]}.

Section DpsaLightningModule.
Context `{Backend}.

Record DpsaLightningModule : Type := {
  model : DpsaModel;
  learning_rate : scalar;
  lr_factor : scalar;
  lr_schedule_patience : nat;
  optimizer_name : string
}.

(** An optimizer built over the model's parameters. *)
Record Optimizer : Type := {
  optimizer_cls : optimizer_class;
  optimizer_params : DpsaModel;
  optimizer_lr : scalar
}.

(** [optim.lr_scheduler.ReduceLROnPlateau] *)
Record ReduceLROnPlateau : Type := {
  scheduler_optimizer : Optimizer;
  scheduler_mode : string;
  scheduler_factor : scalar;
  scheduler_patience : nat
}.

(** Values of the dictionary [configure_optimizers] returns. *)
Inductive config_value : Type :=
| OptimizerValue (o : Optimizer)
| SchedulerValue (s : ReduceLROnPlateau)
| StrValue (s : string).

(** Constructing an optimizer: a negative learning rate is rejected. *)
Definition Optimizer_new (cls : optimizer_class) (params : DpsaModel) (lr : scalar)
    : result Optimizer :=
  if negb (leb zero lr) then Raise ValueError
  else Ok {| optimizer_cls := cls; optimizer_params := params; optimizer_lr := lr |}.

(** Constructing the scheduler: a factor of 1.0 or more is rejected. *)
Definition ReduceLROnPlateau_new (o : Optimizer) (mode : string)
    (factor : scalar) (patience : nat) : result ReduceLROnPlateau :=
  if leb one factor then Raise ValueError
  else Ok {| scheduler_optimizer := o; scheduler_mode := mode;
             scheduler_factor := factor; scheduler_patience := patience |}.

(** [DpsaLightningModule.configure_optimizers], for a registry [dic]
    (the module passes [OPTMIZER_DIC]). *)
Definition configure_optimizers_with (dic : gmap string optimizer_class)
    (self : DpsaLightningModule) : result (gmap string config_value) :=
  result_bind
    (Optimizer_new (default Adam (dic !! optimizer_name self))
                   (model self) (learning_rate self))
    (fun optimizer =>
  result_bind
    (ReduceLROnPlateau_new optimizer "min" (lr_factor self)
                           (lr_schedule_patience self))
    (fun scheduler =>
  Ok (<["monitor"%string := StrValue "val_loss"]>
      (<["lr_scheduler"%string := SchedulerValue scheduler]>
      (<["optimizer"%string := OptimizerValue optimizer]> ∅))))).

Definition configure_optimizers (self : DpsaLightningModule)
    : result (gmap string config_value) :=
  configure_optimizers_with OPTMIZER_DIC self.

(** A batch: the five named fields. *)
Record Batch : Type := {
  premise_input_ids : IntTensor2;
  premise_attention_mask : IntTensor2;
  hypothesis_input_ids : IntTensor2;
  hypothesis_attention_mask : IntTensor2;
  label : IntTensor1
}.

(** The state the step functions run on: the module, the generator and
    what [log_dict] has recorded so far, oldest first. *)
Record Harness : Type := {
  module : DpsaLightningModule;
  rng : generator;
  logged : list (gmap string scalar)
}.

Definition set_model (m : DpsaModel) (self : DpsaLightningModule)
    : DpsaLightningModule :=
  {| model := m; learning_rate := learning_rate self; lr_factor := lr_factor self;
     lr_schedule_patience := lr_schedule_patience self;
     optimizer_name := optimizer_name self |}.

(** [self.model(...)] *)
Definition call_model {A} (m : M (DpsaModel * generator) A) : M Harness A :=
  zoom (fun s => (model (module s), rng s))
       (fun t s => {| module := set_model (fst t) (module s); rng := snd t;
                      logged := logged s |}) m.

(** [self.log_dict(output)] *)
Definition log_dict (output : gmap string scalar) : M Harness unit :=
  fun s => (Ok tt, {| module := module s; rng := rng s;
                      logged := logged s ++ [output] |}).

(** [prediction = torch.argmax(logits, dim=-1)] followed by
    [(prediction == label).float().mean()] *)
Definition batch_accuracy (logits : Tensor2 scalar) (label : IntTensor1)
    : result scalar :=
  result_bind (torch_argmax logits) (fun prediction =>
  result_bind (tensor_eq prediction label) (fun hits =>
  Ok (tensor_mean (tensor_float hits)))).

(** [DpsaLightningModule._metric_forward]; the batch's labels are
    integers already, so [label.long()] leaves them as they are. *)
Definition _metric_forward (batch : Batch) : M Harness (scalar * scalar) :=
  let* logits :=
    call_model (forward (premise_input_ids batch) (premise_attention_mask batch)
                        (hypothesis_input_ids batch) (hypothesis_attention_mask batch)) in
  let label := label batch in
  let* loss := lift_result (cross_entropy logits label) in
  let* accuracy := lift_result (batch_accuracy logits label) in
  ret (loss, accuracy).

Definition training_step (batch : Batch) (batch_idx : nat)
    : M Harness (gmap string scalar) :=
  let* '(loss, accuracy) := _metric_forward batch in
  let output : gmap string scalar :=
    <["train_accuracy"%string := accuracy]> (<["loss"%string := loss]> ∅) in
  let* _ := log_dict output in
  ret output.

Definition validation_step (batch : Batch) (batch_idx : nat)
    : M Harness (gmap string scalar) :=
  let* '(loss, accuracy) := _metric_forward batch in
  let output : gmap string scalar :=
    <["val_accucary"%string := accuracy]> (<["val_loss"%string := loss]> ∅) in
  let* _ := log_dict output in
  ret output.

Definition test_step (batch : Batch) (batch_idx : nat)
    : M Harness (gmap string scalar) :=
  let* '(loss, accuracy) := _metric_forward batch in
  let output : gmap string scalar :=
    <["test_accuracy"%string := accuracy]> (<["test_loss"%string := loss]> ∅) in
  let* _ := log_dict output in
  ret output.

(** What a step function returns and logs once [_metric_forward] has
    produced [(loss, accuracy)]. *)
Definition step_outcome (step : Batch -> nat -> M Harness (gmap string scalar))
    (loss_key accuracy_key : string) (batch : Batch) (batch_idx : nat)
    (s : Harness) : Prop :=
  match _metric_forward batch s with
  | (Ok (loss, accuracy), s1) =>
      exists output,
        step batch batch_idx s =
          (Ok output, {| module := module s1; rng := rng s1;
                         logged := logged s1 ++ [output] |}) /\
        output !! accuracy_key = Some accuracy /\
        output !! loss_key = Some loss /\
        dom output = ({[loss_key; accuracy_key]} : gset string)
  | (Raise e, s1) => step batch batch_idx s = (Raise e, s1)
  end.

End DpsaLightningModule.

(** ** A small executable backend

    Rational scalars, a generator that is a supply of keep/drop
    decisions, and stacks that follow torch's broadcasting rule (sizes
    along an axis must be equal unless one of them is 1).  It is used to
    run the model on concrete inputs. *)

Module Toy.

Definition qadd (x y : Q) : Q := Qred (x + y).
Definition qmul (x y : Q) : Q := Qred (x * y).
Definition qdiv (x y : Q) : Q := Qred (x / y).
Definition qltb (x y : Q) : bool := negb (Qle_bool y x).

#[export] Instance Q_scalar : Scalar Q := {|
  zero := 0%Q;
  one := 1%Q;
  add := qadd;
  mul := qmul;
  div := qdiv;
  ltb := qltb;
  leb := Qle_bool;
  of_nat := fun n => inject_Z (Z.of_nat n)
|}.

(** Pair up two axes under the broadcasting rule. *)
Definition broadcast {A B} (a : list A) (b : list B) : result (list (A * B)) :=
  if Nat.eqb (length a) (length b) then Ok (combine a b)
  else match a, b with
       | [x], _ => Ok (map (fun y => (x, y)) b)
       | _, [y] => Ok (map (fun x => (x, y)) a)
       | _, _ => Raise RuntimeError
       end.

Definition gain (s : Stack Q) : Q := fold_left qadd (stack_layers s) 0%Q.

(** Encoder: token [i] with mask bit [m] becomes the one-feature vector
    [gain * i * m]. *)
Definition encode_row (k : Q) (ids mask : list Z) : result (Tensor2 Q) :=
  result_bind (broadcast ids mask)
    (fun ps => Ok (map (fun p => [qmul k (inject_Z (fst p * snd p))]) ps)).

Definition toy_encoder (training : bool) (input_ids attention_mask : IntTensor2)
    : M (Stack Q * list bool) (Tensor3 Q) :=
  fun w =>
    (result_bind (broadcast input_ids attention_mask)
       (result_mapM (fun p => encode_row (gain (fst w)) (fst p) (snd p))), w).

Definition vec_add (u v : Vec Q) : Vec Q := zip_with qadd u v.

(** Cross-attention: every query position receives [gain] times the sum
    of the unmasked key positions. *)
Definition attend_row (k : Q) (query keys : Tensor2 Q) (mask : list Z)
    : result (Tensor2 Q) :=
  result_bind (broadcast keys mask)
    (fun ps =>
       let context :=
         fold_left (fun acc p => vec_add acc (map (qmul (inject_Z (snd p))) (fst p)))
                   ps (repeat 0%Q (length (default [] (head query)))) in
       Ok (map (fun q => vec_add q (map (qmul k) context)) query)).

Definition toy_decoder (training : bool) (hidden_states encoder_hidden_states : Tensor3 Q)
    (encoder_attention_mask : IntTensor2) : M (Stack Q * list bool) (Tensor3 Q) :=
  fun w =>
    (result_bind (broadcast encoder_hidden_states encoder_attention_mask)
       (fun kms =>
     result_bind (broadcast hidden_states kms)
       (result_mapM (fun p => attend_row (gain (fst w)) (fst p)
                                         (fst (snd p)) (snd (snd p))))), w).

(** One GRU step: every state component is scaled and receives the sum
    of the input. *)
Definition toy_cell (w : Q) (x h : Vec Q) : Vec Q :=
  map (fun hi => qadd (qmul w hi) (fold_left qadd x 0%Q)) h.

(** Dropout in training mode: one decision per element, kept elements
    are scaled by [1/(1-p)]; an exhausted supply keeps. *)
Definition drop_elem (p x : Q) (g : list bool) : Q * list bool :=
  match g with
  | false :: g' => (0%Q, g')
  | true :: g' => (qdiv x (Qred (1 - p)), g')
  | [] => (qdiv x (Qred (1 - p)), [])
  end.

Fixpoint map_state {A B S} (f : A -> S -> B * S) (l : list A) (s : S) : list B * S :=
  match l with
  | [] => ([], s)
  | x :: l' => let (y, s1) := f x s in
               let (ys, s2) := map_state f l' s1 in (y :: ys, s2)
  end.

Definition toy_dropout (p : Q) (x : Tensor3 Q) (g : list bool) : Tensor3 Q * list bool :=
  map_state (map_state (map_state (drop_elem p))) x g.

Definition toy_loss (logits : Tensor2 Q) (label : IntTensor1) : result Q :=
  if Nat.eqb (length logits) (length label) then Ok 0%Q else Raise ValueError.

Definition toy_pretrained (name : string) : option (PretrainedEncoder Q) :=
  if String.eqb name "toy-4"
  then Some {| encoder_layers := [1; 2; 3; 4]%Q; cross_capable := true |}
  else None.

Definition toy_config (name : string) : result Config :=
  if String.eqb name "toy-4" then Ok {| hidden_size := 1 |}
  else Raise ValueError.

#[export] Instance backend : Backend := {|
  scalar := Q;
  scalar_ops := Q_scalar;
  generator := list bool;
  layer := Q;
  cell_weights := Q;
  encoder_forward := toy_encoder;
  decoder_forward := toy_decoder;
  gru_cell := toy_cell;
  dropout_train := toy_dropout;
  cross_entropy := toy_loss;
  load_pretrained := toy_pretrained;
  AutoConfig_from_pretrained := toy_config;
  GRU_init := fun input hidden n p =>
    ret {| gru_input_size := input; gru_hidden_size := hidden;
           gru_weights := repeat 1%Q n; gru_dropout := p |};
  Dropout_init := fun p =>
    if Qle_bool 0 p && Qle_bool p 1 then Ok {| dropout_p := p |}
    else Raise ValueError;
  Linear_init := fun n_in n_out =>
    ret {| in_features := n_in; weight := repeat (repeat 1%Q n_in) n_out;
           bias := repeat 0%Q n_out |}
|}.

(** A model over the toy backend: base gain 1, cross gain 1, a two-layer
    reducer, dropout rate 1/2 and a two-class head whose rows weigh the
    first and the second pooled vector differently. *)
Definition toy_model (training : bool) : DpsaModel :=
  {| base_model := {| stack_layers := [1%Q]; cross_attention := false |};
     cross_model := {| stack_layers := [1%Q]; cross_attention := true |};
     reducer := {| gru_input_size := 1; gru_hidden_size := 1;
                   gru_weights := [1%Q; 1%Q]; gru_dropout := (1 # 2)%Q |};
     dropout := {| dropout_p := (1 # 2)%Q |};
     linear := {| in_features := 2; weight := [[1; 0]; [0; 1]]%Q; bias := [0; 0]%Q |};
     training := training |}.

(** Concrete inputs: a premise batch of shape (2, 3), a hypothesis
    batch of shape (2, 2), and ill-matched variants. *)
Definition premise_ids : IntTensor2 := [[1; 2; 3]; [4; 5; 6]]%Z.
Definition premise_mask : IntTensor2 := [[1; 1; 1]; [1; 1; 0]]%Z.
Definition hypothesis_ids : IntTensor2 := [[7; 8]; [9; 10]]%Z.
Definition hypothesis_mask : IntTensor2 := [[1; 1]; [1; 0]]%Z.



Definition keep_bits : list bool :=
  [true; false; true; true; false; false; true; false; true; true; true; true].

Definition hidden_sequence : Tensor3 Q := [[[1]; [2]; [3]]; [[4]; [5]; [6]]]%Q.

Definition toy_module (name : string) : DpsaLightningModule :=
  {| model := toy_model false; learning_rate := (1 # 1000)%Q;
     lr_factor := (1 # 2)%Q; lr_schedule_patience := 3;
     optimizer_name := name |}.

Definition toy_harness : Harness :=
  {| module := toy_module "Adam"; rng := []; logged := [] |}.

Definition toy_batch : Batch :=
  {| premise_input_ids := premise_ids; premise_attention_mask := premise_mask;
     hypothesis_input_ids := hypothesis_ids;
     hypothesis_attention_mask := hypothesis_mask;
     label := [0; 0]%Z |}.

(** The model that construction from ["toy-4"] with pivot 2, two
    reducer layers and three classes yields. *)
Definition built_model : DpsaModel :=
  {| base_model := {| stack_layers := [1; 2]%Q; cross_attention := false |};
     cross_model := {| stack_layers := [3; 4]%Q; cross_attention := true |};
     reducer := {| gru_input_size := 1; gru_hidden_size := 1;
                   gru_weights := [1; 1]%Q; gru_dropout := (1 # 2)%Q |};
     dropout := {| dropout_p := (1 # 2)%Q |};
     linear := {| in_features := 2; weight := [[1; 1]; [1; 1]; [1; 1]]%Q;
                  bias := [0; 0; 0]%Q |};
     training := true |}.

(** [toy_model] with other dropout rates. *)
Definition toy_model_rates (p q : Q) (training : bool) : DpsaModel :=
  {| base_model := {| stack_layers := [1%Q]; cross_attention := false |};
     cross_model := {| stack_layers := [1%Q]; cross_attention := true |};
     reducer := {| gru_input_size := 1; gru_hidden_size := 1;
                   gru_weights := [1%Q; 1%Q]; gru_dropout := q |};
     dropout := {| dropout_p := p |};
     linear := {| in_features := 2; weight := [[1; 0]; [0; 1]]%Q; bias := [0; 0]%Q |};
     training := training |}.

(** One padding position for each row of [hidden_sequence]. *)
Definition padding : Tensor3 Q := [[[7]]; [[9]]]%Q.

Definition example_logits : Tensor2 Q := [[2; 1; 0]; [0; 1; 2]]%Q.

(** Labels for [example_logits] with one miss, and with two. *)
Definition mixed_labels : IntTensor1 := [0; 1]%Z.
Definition wrong_labels : IntTensor1 := [1; 0]%Z.

End Toy.

(** ** Further notions used to state properties *)

Section Notions.
Context `{Backend}.

(** [DpsaLightningModule.__init__]: builds the model and stores the
    harness settings. *)
Definition DpsaLightningModule_init (model_name : string) (pivot : Z)
    (dropout_reducer : scalar) (num_layer_reducer num_class : nat)
    (learning_rate lr_factor : scalar) (lr_schedule_patience : nat)
    (optimizer_name : string) : M generator DpsaLightningModule :=
  let* m := DpsaModel_init model_name pivot dropout_reducer
                           num_layer_reducer num_class in
  ret {| model := m; learning_rate := learning_rate; lr_factor := lr_factor;
         lr_schedule_patience := lr_schedule_patience;
         optimizer_name := optimizer_name |}.

(** The reducer and the head of [self] fit hidden size [hs] and [c]
    classes: the reducer has a layer, reads and keeps vectors of size
    [hs], and the linear layer maps [2 * hs] features to [c] scores. *)
Definition well_formed_head (self : DpsaModel) (hs c : nat) : Prop :=
  gru_weights (reducer self) <> [] /\
  gru_input_size (reducer self) = hs /\
  gru_hidden_size (reducer self) = hs /\
  in_features (linear self) = 2 * hs /\
  length (weight (linear self)) = c /\
  length (bias (linear self)) = c.

(** [self'] has the reducer, dropout, linear layer and mode of [self]. *)
Definition same_head (self self' : DpsaModel) : Prop :=
  reducer self' = reducer self /\ dropout self' = dropout self /\
  linear self' = linear self /\ training self' = training self.

(** A computation that, in evaluation mode, leaves model and generator
    alone and whose result does not depend on the generator. *)
Definition eval_pure {A} (m : M (DpsaModel * generator) A) : Prop :=
  forall self g g', training self = false ->
    m (self, g) = (fst (m (self, g')), (self, g)).

(** The number of examples whose prediction equals the label. *)
Definition count_hits (prediction : list nat) (label : IntTensor1) : nat :=
  length (filter (fun pl => Z.of_nat (fst pl) = snd pl)
                 (combine prediction label)).

(** The reducer's output in evaluation mode: the layers applied one
    after the other, no dropout in between. *)
Definition gru_eval_output (hidden : nat) (ws : list cell_weights)
    (x : Tensor3 scalar) : Tensor3 scalar :=
  fold_left (fun y w => gru_layer w hidden y) ws x.

(** The evaluation-mode reducer on one sequence: each layer scans the
    states of the layer below, from the zero state. *)
Definition row_eval (hidden : nat) (ws : list cell_weights) (seq : Tensor2 scalar)
    : Tensor2 scalar :=
  fold_left (fun s w => gru_scan w (repeat zero hidden) s) ws seq.

(** [self'] is [self] up to the two dropout rates (of [nn.Dropout] and
    of the GRU). *)
Definition same_but_dropout (self self' : DpsaModel) : Prop :=
  base_model self' = base_model self /\ cross_model self' = cross_model self /\
  linear self' = linear self /\ training self' = training self /\
  gru_input_size (reducer self') = gru_input_size (reducer self) /\
  gru_hidden_size (reducer self') = gru_hidden_size (reducer self) /\
  gru_weights (reducer self') = gru_weights (reducer self).

(** Two states in evaluation mode that differ in the dropout rates only. *)
Definition eval_twins (w w' : DpsaModel * generator) : Prop :=
  same_but_dropout (fst w) (fst w') /\ training (fst w) = false /\ snd w' = snd w.

(** A computation that cannot tell evaluation-mode twins apart. *)
Definition dropout_blind {A} (m : M (DpsaModel * generator) A) : Prop :=
  forall w w', eval_twins w w' ->
    fst (m w') = fst (m w) /\ eval_twins (snd (m w)) (snd (m w')).

(** Two harness modules with the same settings (everything but the model). *)
Definition same_settings (a b : DpsaLightningModule) : Prop :=
  learning_rate b = learning_rate a /\ lr_factor b = lr_factor a /\
  lr_schedule_patience b = lr_schedule_patience a /\
  optimizer_name b = optimizer_name a.

(** The three step functions. *)
Definition step_functions : list (Batch -> nat -> M Harness (gmap string scalar)) :=
  [training_step; validation_step; test_step].

End Notions.

(** * Properties *)

(** ** The monad *)

Lemma bind_ok {S A B} (m : M S A) (k : A -> M S B) s a s' :
  m s = (Ok a, s') -> bind m k s = k a s'.
Proof. intros E. unfold bind. now rewrite E. Qed.

Lemma bind_raise {S A B} (m : M S A) (k : A -> M S B) s e s' :
  m s = (Raise e, s') -> bind m k s = (Raise e, s').
Proof. intros E. unfold bind. now rewrite E. Qed.

Lemma bind_inv_ok {S A B} (m : M S A) (k : A -> M S B) s b s2 :
  bind m k s = (Ok b, s2) ->
  exists a s1, m s = (Ok a, s1) /\ k a s1 = (Ok b, s2).
Proof.
  unfold bind. destruct (m s) as [[a|e] s1]; intros E.
  - exists a, s1. now split.
  - discriminate.
Qed.


Lemma bind_assoc {S A B C} (m : M S A) (k : A -> M S B) (j : B -> M S C) s :
  bind (bind m k) j s = bind m (fun a => bind (k a) j) s.
Proof. unfold bind. destruct (m s) as [[a|e] s1]; reflexivity. Qed.

Lemma bind_ext {S A B} (m : M S A) (k k' : A -> M S B) s :
  (forall a s1, k a s1 = k' a s1) -> bind m k s = bind m k' s.
Proof. intros E. unfold bind. destruct (m s) as [[a|e] s1]; auto. Qed.

Lemma bind_ret_r {S A} (m : M S A) s : bind m ret s = m s.
Proof. unfold bind, ret. destruct (m s) as [[a|e] s1]; reflexivity. Qed.

Lemma run_split {S A} (m : M S A) (s : S) (r : result A) :
  fst (m s) = r -> m s = (r, snd (m s)).
Proof. destruct (m s) as [r' s']. simpl. now intros ->. Qed.


(** ** The splitter and model construction *)

Section SplitterProperties.
Context `{Backend}.

Lemma slice_transformers_ok model_name pivot enc :
  load_pretrained model_name = Some enc ->
  cross_capable enc = true ->
  (0 < pivot < Z.of_nat (length (encoder_layers enc)))%Z ->
  slice_transformers model_name pivot =
    Ok ({| stack_layers := take (Z.to_nat pivot) (encoder_layers enc);
           cross_attention := false |},
        {| stack_layers := drop (Z.to_nat pivot) (encoder_layers enc);
           cross_attention := true |}).
Proof.
  intros Hload Hcap [Hlo Hhi]. unfold slice_transformers. rewrite Hload, Hcap.
  apply Z.ltb_lt in Hlo, Hhi. now rewrite Hlo, Hhi.
Qed.

Lemma slice_transformers_rejects model_name pivot :
  (forall enc, load_pretrained model_name = Some enc ->
     (pivot <= 0 \/ Z.of_nat (length (encoder_layers enc)) <= pivot)%Z) ->
  slice_transformers model_name pivot = Raise ConfigurationError.
Proof.
  intros Hout. unfold slice_transformers.
  destruct (load_pretrained model_name) as [enc|]; [|reflexivity].
  destruct (Hout enc eq_refl) as [Hle|Hle].
  - apply Z.ltb_ge in Hle. now rewrite Hle.
  - apply Z.ltb_ge in Hle. rewrite Hle. now rewrite andb_false_r.
Qed.

Lemma DpsaModel_init_stacks model_name pivot d n c g self g' :
  DpsaModel_init model_name pivot d n c g = (Ok self, g') ->
  slice_transformers model_name pivot = Ok (base_model self, cross_model self).
Proof.
  unfold DpsaModel_init. intros E.
  apply bind_inv_ok in E as ([base cross] & g1 & E1 & E).
  unfold lift_result in E1. inversion E1; subst. rewrite H1.
  apply bind_inv_ok in E as (cfg & g2 & _ & E).
  apply bind_inv_ok in E as (gru & g3 & _ & E).
  apply bind_inv_ok in E as (dr & g4 & _ & E).
  apply bind_inv_ok in E as (lin & g5 & _ & E).
  unfold ret in E. now inversion E; subst.
Qed.

(** C4: for a pivot with [0 < pivot < num_layers] the splitter returns
    the base stack [layers[0:pivot)] and the cross stack
    [layers[pivot:end)]: together they are the original layer list in
    its order, every position of the list lies in exactly one of them,
    distinct layers are never shared, and these are the stacks a
    constructed model holds. *)
Theorem slice_transformers_partition model_name pivot enc :
  load_pretrained model_name = Some enc ->
  cross_capable enc = true ->
  (0 < pivot < Z.of_nat (length (encoder_layers enc)))%Z ->
  exists base cross,
    slice_transformers model_name pivot = Ok (base, cross) /\
    stack_layers base = take (Z.to_nat pivot) (encoder_layers enc) /\
    stack_layers cross = drop (Z.to_nat pivot) (encoder_layers enc) /\
    stack_layers base ++ stack_layers cross = encoder_layers enc /\
    length (stack_layers base) = Z.to_nat pivot /\
    length (stack_layers cross) = length (encoder_layers enc) - Z.to_nat pivot /\
    0 < length (stack_layers base) /\ 0 < length (stack_layers cross) /\
    (forall i, i < Z.to_nat pivot ->
       stack_layers base !! i = encoder_layers enc !! i) /\
    (forall i, Z.to_nat pivot <= i -> stack_layers base !! i = None) /\
    (forall i, stack_layers cross !! i = encoder_layers enc !! (Z.to_nat pivot + i)) /\
    (NoDup (encoder_layers enc) ->
       forall l, l ∈ stack_layers base -> l ∉ stack_layers cross) /\
    (forall d n c g self g',
       DpsaModel_init model_name pivot d n c g = (Ok self, g') ->
       base_model self = base /\ cross_model self = cross).
Proof.
  intros Hload Hcap Hrange.
  pose proof (slice_transformers_ok _ _ _ Hload Hcap Hrange) as Hok.
  eexists _, _. split; [exact Hok|]. simpl.
  set (layers := encoder_layers enc) in *.
  set (k := Z.to_nat pivot).
  assert (Hk : 0 < k < length layers) by (unfold k; lia).
  repeat split.
  - apply take_drop.
  - rewrite length_take. lia.
  - apply length_drop.
  - rewrite length_take. lia.
  - rewrite length_drop. lia.
  - intros i Hi. now apply lookup_take_lt.
  - intros i Hi. apply lookup_ge_None. rewrite length_take. lia.
  - intros i. apply lookup_drop.
  - intros Hnd l Hb Hc.
    rewrite <- (take_drop k layers) in Hnd.
    apply NoDup_app in Hnd as (_ & Hdisj & _). exact (Hdisj l Hb Hc).
  - apply DpsaModel_init_stacks in H0. rewrite Hok in H0. now inversion H0.
  - apply DpsaModel_init_stacks in H0. rewrite Hok in H0. now inversion H0.
Qed.

(** C6: construction with a pivot outside the open range
    [(0, num_layers)], in particular [pivot = 0] and
    [pivot = num_layers], fails with [ConfigurationError]: no model is
    returned and the generator is untouched. *)
Theorem DpsaModel_init_pivot_out_of_range model_name pivot d n c g :
  (forall enc, load_pretrained model_name = Some enc ->
     (pivot <= 0 \/ Z.of_nat (length (encoder_layers enc)) <= pivot)%Z) ->
  DpsaModel_init model_name pivot d n c g = (Raise ConfigurationError, g).
Proof.
  intros Hout. unfold DpsaModel_init.
  apply bind_raise. unfold lift_result.
  now rewrite slice_transformers_rejects.
Qed.

End SplitterProperties.

(** ** The harness: optimizer configuration and the step functions *)

Section HarnessProperties.
Context `{Backend}.

Lemma OPTMIZER_DIC_lookup (name : string) :
  OPTMIZER_DIC !! name = (if decide (name = "Adam"%string) then Some Adam else None).
Proof.
  unfold OPTMIZER_DIC. destruct (decide (name = "Adam"%string)) as [->|Hne].
  - apply lookup_singleton_eq.
  - apply lookup_singleton_ne. congruence.
Qed.

Lemma registry_choice (name : string) : default Adam (OPTMIZER_DIC !! name) = Adam.
Proof. rewrite OPTMIZER_DIC_lookup. now destruct (decide _). Qed.

(** C8: the optimizer class is looked up by name in the registry and is
    [Adam] for every name the registry does not hold (with the registry
    of the module, for every name); whenever the learning rate and the
    factor are accepted the call returns, and what it returns holds
    exactly the optimizer, a [ReduceLROnPlateau] scheduler in mode
    ["min"] built on that optimizer with the configured factor and
    patience, and the monitored quantity ["val_loss"]. *)
Theorem configure_optimizers_spec (self : DpsaLightningModule) :
  (forall dic cls, dic !! optimizer_name self = Some cls ->
     configure_optimizers_with dic self =
     result_bind (Optimizer_new cls (model self) (learning_rate self))
       (fun o => result_bind
          (ReduceLROnPlateau_new o "min" (lr_factor self) (lr_schedule_patience self))
          (fun s => Ok (<["monitor"%string := StrValue "val_loss"]>
                       (<["lr_scheduler"%string := SchedulerValue s]>
                       (<["optimizer"%string := OptimizerValue o]> ∅)))))) /\
  (forall dic, dic !! optimizer_name self = None ->
     configure_optimizers_with dic self =
     configure_optimizers_with (<[optimizer_name self := Adam]> dic) self) /\
  (optimizer_name self <> "Adam"%string -> OPTMIZER_DIC !! optimizer_name self = None) /\
  (leb zero (learning_rate self) = true -> leb one (lr_factor self) = false ->
     exists output, configure_optimizers self = Ok output) /\
  (forall output, configure_optimizers self = Ok output ->
     exists optimizer scheduler,
       output !! "optimizer"%string = Some (OptimizerValue optimizer) /\
       output !! "lr_scheduler"%string = Some (SchedulerValue scheduler) /\
       output !! "monitor"%string = Some (StrValue "val_loss") /\
       dom output = ({["optimizer"%string; "lr_scheduler"%string; "monitor"%string]} : gset string) /\
       optimizer_cls optimizer = Adam /\
       optimizer_params optimizer = model self /\
       optimizer_lr optimizer = learning_rate self /\
       scheduler_optimizer scheduler = optimizer /\
       scheduler_mode scheduler = "min"%string /\
       scheduler_factor scheduler = lr_factor self /\
       scheduler_patience scheduler = lr_schedule_patience self).
Proof.
  split; [|split; [|split; [|split]]].
  - intros dic cls Hcls. unfold configure_optimizers_with. now rewrite Hcls.
  - intros dic Hnone. unfold configure_optimizers_with.
    now rewrite Hnone, lookup_insert_eq.
  - intros Hne. rewrite OPTMIZER_DIC_lookup. now destruct (decide _).
  - intros Hlr Hf. unfold configure_optimizers, configure_optimizers_with.
    unfold Optimizer_new, ReduceLROnPlateau_new. rewrite Hlr. simpl. rewrite Hf.
    eexists. reflexivity.
  - intros output. unfold configure_optimizers, configure_optimizers_with.
    rewrite registry_choice. unfold Optimizer_new, ReduceLROnPlateau_new.
    destruct (negb (leb zero (learning_rate self))); [discriminate|]. simpl.
    destruct (leb one (lr_factor self)); [discriminate|]. simpl.
    intros E. inversion E; subst; clear E.
    eexists _, _. repeat split.
Qed.

(** C10: the three step functions publish the accuracy under
    ["train_accuracy"], ["val_accucary"] and ["test_accuracy"]; the
    validation step's dictionary, which is also what it logs, has no
    ["val_accuracy"] entry. *)
Theorem step_accuracy_keys (batch : Batch) (batch_idx : nat) (s : Harness) :
  step_outcome training_step "loss" "train_accuracy" batch batch_idx s /\
  step_outcome validation_step "val_loss" "val_accucary" batch batch_idx s /\
  step_outcome test_step "test_loss" "test_accuracy" batch batch_idx s /\
  (forall output s', validation_step batch batch_idx s = (Ok output, s') ->
     output !! "val_accuracy"%string = None /\
     last (logged s') = Some output).
Proof.
  unfold step_outcome, training_step, validation_step, test_step.
  destruct (_metric_forward batch s) as [[[loss accuracy]|e] s1] eqn:E.
  - repeat split.
    + eexists. rewrite (bind_ok _ _ _ _ _ E). cbn. split; [reflexivity|].
      repeat split.
    + eexists. rewrite (bind_ok _ _ _ _ _ E). cbn. split; [reflexivity|].
      repeat split.
    + eexists. rewrite (bind_ok _ _ _ _ _ E). cbn. split; [reflexivity|].
      repeat split.
    + rewrite (bind_ok _ _ _ _ _ E) in H0. cbn in H0. inversion H0; subst.
      by simplify_map_eq.
    + rewrite (bind_ok _ _ _ _ _ E) in H0. cbn in H0. inversion H0; subst.
      cbn. apply last_snoc.
  - rewrite !(bind_raise _ _ _ _ _ E). repeat split; discriminate.
Qed.

End HarnessProperties.

(** ** The forward pass *)

Section ForwardProperties.
Context `{Backend}.

Lemma lookup_map {A B} (f : A -> B) (l : list A) i :
  map f l !! i = f <$> (l !! i).
Proof.
  revert i. induction l as [|x l IH]; intros [|i]; simpl; try reflexivity.
  apply IH.
Qed.

Lemma gru_input_ok_shape (n : nat) (x : Tensor3 scalar) b t :
  shape3 x b t n -> 1 <= t -> gru_input_ok n x = true.
Proof.
  intros [_ Hrows] Ht. unfold gru_input_ok. apply forallb_forall.
  intros seq Hseq. rewrite Forall_forall in Hrows.
  destruct (Hrows seq) as [Hlen Hvs]; [now apply list_elem_of_In|].
  apply andb_true_intro. split.
  - apply negb_true_iff, Nat.eqb_neq. lia.
  - apply forallb_forall. intros v Hv. apply Nat.eqb_eq.
    rewrite Forall_forall in Hvs. apply Hvs. now apply list_elem_of_In.
Qed.

Lemma gru_input_ok_app (n : nat) (x y : Tensor3 scalar) :
  gru_input_ok n (x ++ y) = gru_input_ok n x && gru_input_ok n y.
Proof. unfold gru_input_ok. apply forallb_app. Qed.


Lemma torch_cat_mismatch (a b : Tensor2 scalar) :
  length a <> length b -> torch_cat a b = Raise RuntimeError.
Proof.
  intros Hne. unfold torch_cat.
  destruct (Nat.eqb (length a) (length b)) eqn:E; [|reflexivity].
  apply Nat.eqb_eq in E. contradiction.
Qed.


Lemma with_generator_run {A} (m : DpsaModel -> M generator A) self g :
  with_generator m (self, g) = (fst (m self g), (self, snd (m self g))).
Proof. unfold with_generator, zoom. simpl. now destruct (m self g). Qed.

Lemma classify_run (a b : Tensor2 scalar) (w : DpsaModel * generator) :
  classify a b w =
    (result_bind (torch_cat a b) (Linear_forward (linear (fst w))), w).
Proof.
  destruct w as [self g]. unfold classify, bind, lift_result, call_linear.
  destruct (torch_cat a b) as [o|e]; simpl; [|reflexivity].
  now rewrite with_generator_run.
Qed.

(** [forward] is [pooled_vectors] followed by the classifier head on
    the first vector joined with the second. *)
Lemma forward_pooled_classify p pm h hm (w : DpsaModel * generator) :
  forward p pm h hm w =
  bind (pooled_vectors p pm h hm) (fun ab => classify (fst ab) (snd ab)) w.
Proof.
  unfold forward, pooled_vectors.
  repeat (rewrite bind_assoc; apply bind_ext; intros ? ?).
  unfold classify. cbn [bind ret fst snd].
  apply bind_ext. intros o s. apply bind_ret_r.
Qed.


(** *** Frame: the model a forward pass leaves behind *)

Lemma preserves_bind {A B} (m : M (DpsaModel * generator) A)
    (k : A -> M (DpsaModel * generator) B) :
  preserves_model m -> (forall a, preserves_model (k a)) ->
  preserves_model (bind m k).
Proof.
  intros Hm Hk w. unfold bind. specialize (Hm w).
  destruct (m w) as [[a|e] w1]; simpl in *; [|exact Hm].
  now rewrite Hk.
Qed.

Lemma preserves_ret {A} (a : A) : preserves_model (ret a).
Proof. now intros w. Qed.

Lemma preserves_lift_result {A} (r : result A) : preserves_model (lift_result r).
Proof. now intros w. Qed.

Lemma preserves_with_generator {A} (m : DpsaModel -> M generator A) :
  preserves_model (with_generator m).
Proof. intros [self g]. now rewrite with_generator_run. Qed.

Lemma set_base_model_same (self : DpsaModel) :
  set_base_model (base_model self) self = self.
Proof. now destruct self. Qed.

Lemma set_cross_model_same (self : DpsaModel) :
  set_cross_model (cross_model self) self = self.
Proof. now destruct self. Qed.

(** C9: provided the two transformer stacks' own forward passes leave
    their stack as it was, a forward call (whether it returns or raises)
    leaves the whole model as it was: base stack, cross stack, reducer,
    dropout, linear layer and mode flag. *)
Theorem forward_preserves_model p pm h hm (w : DpsaModel * generator) :
  (forall tr ids mask s g, fst (snd (encoder_forward tr ids mask (s, g))) = s) ->
  (forall tr x y mask s g, fst (snd (decoder_forward tr x y mask (s, g))) = s) ->
  fst (snd (forward p pm h hm w)) = fst w.
Proof.
  intros Henc Hdec.
  assert (Hbase : forall ids mask, preserves_model (call_base_model ids mask)).
  { intros ids mask [self g]. unfold call_base_model, zoom. simpl.
    specialize (Henc (training self) ids mask (base_model self) g).
    destruct (encoder_forward _ _ _ _) as [r [s' g']]. simpl in *. subst.
    apply set_base_model_same. }
  assert (Hcross : forall x y mask, preserves_model (call_cross_model x y mask)).
  { intros x y mask [self g]. unfold call_cross_model, zoom. simpl.
    specialize (Hdec (training self) x y mask (cross_model self) g).
    destruct (decoder_forward _ _ _ _ _) as [r [s' g']]. simpl in *. subst.
    apply set_cross_model_same. }
  revert w. change (preserves_model (forward p pm h hm)). unfold forward, pooler.
  repeat first
    [ apply preserves_bind; [|intros ?]
    | apply Hbase | apply Hcross
    | apply preserves_with_generator
    | apply preserves_lift_result
    | apply preserves_ret ].
Qed.

End ForwardProperties.

(** ** The reducer *)

Section ReducerProperties.
Context `{Backend}.

(** The cell keeps the size of the state; dropout keeps the shape. *)
Hypothesis gru_cell_length :
  forall w x h, length (gru_cell w x h) = length h.
Hypothesis dropout_train_shape :
  forall p x g b t f, shape3 x b t f -> shape3 (fst (dropout_train p x g)) b t f.

Lemma gru_scan_length w h xs : length (gru_scan w h xs) = length xs.
Proof. revert h. induction xs as [|x xs IH]; intros h; simpl; [reflexivity|]. now rewrite IH. Qed.

Lemma gru_scan_states w h xs :
  Forall (fun s => length s = length h) (gru_scan w h xs).
Proof.
  revert h. induction xs as [|x xs IH]; intros h; simpl; constructor.
  - apply gru_cell_length.
  - specialize (IH (gru_cell w x h)). rewrite gru_cell_length in IH. exact IH.
Qed.

Lemma gru_scan_last w h xs :
  xs <> [] -> last (gru_scan w h xs) = Some (fold_left (run_cell w) xs h).
Proof.
  revert h. induction xs as [|x xs IH]; intros h Hne; [contradiction|].
  simpl. destruct xs as [|x' xs']; [reflexivity|].
  specialize (IH (gru_cell w x h) ltac:(discriminate)).
  simpl in *. exact IH.
Qed.

Lemma fold_cell_length w xs h : length (fold_left (run_cell w) xs h) = length h.
Proof.
  revert h. induction xs as [|x xs IH]; intros h; simpl; [reflexivity|].
  rewrite IH. apply gru_cell_length.
Qed.

Lemma gru_layer_shape w hs x b t f :
  shape3 x b t f -> shape3 (gru_layer w hs x) b t hs.
Proof.
  intros [Hb Hrows]. split.
  - unfold gru_layer. now rewrite length_map.
  - unfold gru_layer. apply Forall_map. eapply Forall_impl; [exact Hrows|].
    intros seq [Ht _]. split.
    + now rewrite gru_scan_length.
    + eapply Forall_impl; [apply gru_scan_states|].
      intros s Hs. simpl in Hs. now rewrite Hs, repeat_length.
Qed.

Lemma Dropout_forward_shape d tr x g b t f :
  shape3 x b t f ->
  exists y g', Dropout_forward d tr x g = (Ok y, g') /\ shape3 y b t f.
Proof.
  intros Hx. unfold Dropout_forward. destruct tr.
  - pose proof (dropout_train_shape (dropout_p d) x g b t f Hx) as Hy.
    destruct (dropout_train (dropout_p d) x g) as [y g']. now exists y, g'.
  - now exists x, g.
Qed.

Lemma gru_layers_top p tr hs ws x g b t :
  ws <> [] -> shape3 x b t hs ->
  exists top_in w_top out h_n g',
    gru_layers p tr hs ws x g = (Ok (out, h_n), g') /\
    last ws = Some w_top /\
    shape3 top_in b t hs /\
    out = gru_layer w_top hs top_in /\
    last h_n = Some (gru_final hs out) /\
    (ws = [w_top] -> top_in = x) .
Proof.
  revert x g. induction ws as [|w ws IH]; intros x g Hne Hx; [contradiction|].
  destruct ws as [|w' ws'].
  - exists x, w, (gru_layer w hs x), [gru_final hs (gru_layer w hs x)], g.
    simpl. repeat split; try reflexivity; apply Hx.
  - pose proof (gru_layer_shape w hs x b t hs Hx) as Hy.
    destruct (Dropout_forward_shape {| dropout_p := p |} tr _ g b t hs Hy)
      as (y' & g1 & Edrop & Hy').
    destruct (IH y' g1 ltac:(discriminate) Hy')
      as (top_in & w_top & out & h_n & g' & Erec & Hlast & Htop & Hout & Hhn & _).
    exists top_in, w_top, out, (gru_final hs (gru_layer w hs x) :: h_n), g'.
    split.
    { change (gru_layers p tr hs (w :: w' :: ws') x g) with
        (bind (Dropout_forward {| dropout_p := p |} tr (gru_layer w hs x))
           (fun y' => bind (gru_layers p tr hs (w' :: ws') y')
              (fun r => match r with
                        | (out, h_n) =>
                            ret (out, gru_final hs (gru_layer w hs x) :: h_n)
                        end)) g).
      rewrite (bind_ok _ _ _ _ _ Edrop). now rewrite (bind_ok _ _ _ _ _ Erec). }
    split; [exact Hlast|]. split; [exact Htop|]. split; [exact Hout|].
    split; [|discriminate].
    destruct h_n as [|h0 h_n]; [discriminate|]. exact Hhn.
Qed.

Lemma select_last_layer w hs (top_in : Tensor3 scalar) b t f :
  shape3 top_in b t f -> 1 <= t ->
  select_last (gru_layer w hs top_in) =
    Ok (map (fun seq => fold_left (run_cell w) seq (repeat zero hs)) top_in) /\
  gru_final hs (gru_layer w hs top_in) =
    map (fun seq => fold_left (run_cell w) seq (repeat zero hs)) top_in.
Proof.
  intros [_ Hrows] Ht. unfold select_last, gru_layer, gru_final.
  induction Hrows as [|seq l [Hlen _] _ IH]; simpl; [now split|].
  destruct IH as [IH1 IH2].
  assert (Hne : seq <> []) by (destruct seq; simpl in *; [lia|discriminate]).
  rewrite (gru_scan_last w _ seq Hne). simpl. rewrite IH1, IH2. now split.
Qed.

Lemma pooled_vectors_dropped p pm h hm (w : DpsaModel * generator) :
  pooled_vectors p pm h hm w =
  bind (dropped_states p pm h hm)
       (fun xs => bind (pooler (fst xs)) (fun a =>
                  bind (pooler (snd xs)) (fun b => ret (a, b)))) w.
Proof.
  unfold pooled_vectors, dropped_states.
  repeat (rewrite bind_assoc; apply bind_ext; intros ? ?).
  reflexivity.
Qed.

(** C3: on a hidden-state sequence of shape (batch, seq_len,
    hidden_size) with [seq_len >= 1] the reducer returns, and the pooled
    output [reducer(x)[0][:, -1, :]] is, row by row, the state of the top
    recurrent layer after the last position: entry [seq_len - 1] of the
    reducer's output, equal to the last entry of [h_n]; it has shape
    (batch, hidden_size).  The pooled vectors of [forward] are this
    function of the two dropped-out sequences alone: no attention mask
    reaches the reducer or selects the position. *)
Theorem pooler_last_step (self : DpsaModel) (g : generator)
    (x : Tensor3 scalar) (b t : nat) :
  gru_weights (reducer self) <> [] ->
  gru_input_size (reducer self) = gru_hidden_size (reducer self) ->
  shape3 x b t (gru_hidden_size (reducer self)) ->
  1 <= t ->
  let hs := gru_hidden_size (reducer self) in
  exists top_in w_top out h_n pooled g',
    call_reducer x (self, g) = (Ok (out, h_n), (self, g')) /\
    pooler x (self, g) = (Ok pooled, (self, g')) /\
    last (gru_weights (reducer self)) = Some w_top /\
    shape3 top_in b t hs /\
    out = gru_layer w_top hs top_in /\
    pooled = map (fun seq => fold_left (run_cell w_top) seq (repeat zero hs)) top_in /\
    (forall i, pooled !! i =
               match out !! i with Some seq => seq !! (t - 1) | None => None end) /\
    last h_n = Some pooled /\
    shape2 pooled b hs /\
    (forall p pm h hm w,
       pooled_vectors p pm h hm w =
       bind (dropped_states p pm h hm)
            (fun xs => bind (pooler (fst xs)) (fun a =>
                       bind (pooler (snd xs)) (fun b => ret (a, b)))) w).
Proof.
  intros Hne Hin Hx Ht hs.
  destruct (gru_layers_top (gru_dropout (reducer self)) (training self) hs
              (gru_weights (reducer self)) x g b t Hne Hx)
    as (top_in & w_top & out & h_n & g' & Erun & Hlast & Htop & Hout & Hhn & _).
  destruct (select_last_layer w_top hs top_in b t hs Htop Ht) as [Hsel Hfin].
  set (pooled := map (fun seq => fold_left (run_cell w_top) seq (repeat zero hs)) top_in).
  assert (Ecall : call_reducer x (self, g) = (Ok (out, h_n), (self, g'))).
  { unfold call_reducer. rewrite with_generator_run. unfold GRU_forward.
    rewrite Hin, (gru_input_ok_shape _ x b t Hx Ht).
    fold hs. now rewrite Erun. }
  exists top_in, w_top, out, h_n, pooled, g'.
  split; [exact Ecall|]. split.
  { unfold pooler. rewrite (bind_ok _ _ _ _ _ Ecall). unfold lift_result.
    simpl. now rewrite Hout, Hsel. }
  split; [exact Hlast|]. split; [exact Htop|]. split; [exact Hout|].
  split; [reflexivity|]. split.
  { intros i. subst out. unfold pooled, gru_layer. rewrite !lookup_map.
    destruct (top_in !! i) as [seq|] eqn:Ei; simpl; [|reflexivity].
    destruct Htop as [_ Hrows]. rewrite Forall_forall in Hrows.
    destruct (Hrows seq) as [Hlen _]; [eapply list_elem_of_lookup_2; eauto|].
    assert (Hseq : seq <> []) by (destruct seq; simpl in *; [lia|discriminate]).
    pose proof (gru_scan_last w_top (repeat zero hs) seq Hseq) as Hl.
    rewrite last_lookup, gru_scan_length, Hlen in Hl.
    replace (t - 1) with (pred t) by lia. now rewrite Hl. }
  split; [now rewrite Hhn, Hout, Hfin|]. split.
  { destruct Htop as [Hb Hrows]. split.
    - unfold pooled. now rewrite length_map.
    - unfold pooled. apply Forall_map. apply Forall_forall. intros seq _.
      simpl. rewrite fold_cell_length. apply repeat_length. }
  intros. apply pooled_vectors_dropped.
Qed.

End ReducerProperties.

(** ** Symmetry of the forward pass *)

Section SymmetryProperties.
Context `{Backend}.

(** In evaluation mode a stack's forward pass is a function of its
    inputs and weights: it leaves stack and generator alone and does not
    depend on the generator. *)
Hypothesis encoder_eval_pure :
  forall ids mask s g g',
    encoder_forward false ids mask (s, g) =
    (fst (encoder_forward false ids mask (s, g')), (s, g)).
Hypothesis decoder_eval_pure :
  forall x y mask s g g',
    decoder_forward false x y mask (s, g) =
    (fst (decoder_forward false x y mask (s, g')), (s, g)).

Lemma call_base_model_eval ids mask self g :
  training self = false ->
  snd (call_base_model ids mask (self, g)) = (self, g).
Proof.
  intros Htr. unfold call_base_model, zoom. simpl. rewrite Htr.
  rewrite (encoder_eval_pure ids mask (base_model self) g g). simpl.
  now rewrite set_base_model_same.
Qed.

Lemma call_cross_model_eval x y mask self g :
  training self = false ->
  snd (call_cross_model x y mask (self, g)) = (self, g).
Proof.
  intros Htr. unfold call_cross_model, zoom. simpl. rewrite Htr.
  rewrite (decoder_eval_pure x y mask (cross_model self) g g). simpl.
  now rewrite set_cross_model_same.
Qed.

Lemma call_dropout_eval x self g :
  training self = false -> call_dropout x (self, g) = (Ok x, (self, g)).
Proof.
  intros Htr. unfold call_dropout. rewrite with_generator_run.
  unfold Dropout_forward. now rewrite Htr.
Qed.

Lemma gru_layers_eval p hs ws x g :
  snd (gru_layers p false hs ws x g) = g.
Proof.
  revert x. induction ws as [|w ws IH]; intros x; [reflexivity|].
  destruct ws as [|w' ws']; [reflexivity|].
  change (gru_layers p false hs (w :: w' :: ws') x g) with
    (bind (gru_layers p false hs (w' :: ws') (gru_layer w hs x))
       (fun r => match r with
                 | (out, h_n) => ret (out, gru_final hs (gru_layer w hs x) :: h_n)
                 end) g).
  unfold bind. specialize (IH (gru_layer w hs x)).
  destruct (gru_layers p false hs (w' :: ws') (gru_layer w hs x) g)
    as [[[out h_n]|e] g1]; simpl in *; exact IH.
Qed.

Lemma pooler_eval x self g :
  training self = false -> snd (pooler x (self, g)) = (self, g).
Proof.
  intros Htr. unfold pooler, bind, call_reducer. rewrite with_generator_run.
  assert (Hg : snd (GRU_forward (reducer self) (training self) x g) = g).
  { unfold GRU_forward. rewrite Htr. destruct (gru_input_ok _ x); [|reflexivity].
    apply gru_layers_eval. }
  destruct (GRU_forward (reducer self) (training self) x g) as [[out|e] g1];
    simpl in *; now subst.
Qed.

(** C1, in evaluation mode: when [forward] on (premise, hypothesis)
    computes the pooled vectors [(a, b)], the call with the two inputs
    exchanged (ids and masks together) computes [(b, a)], so its logits
    are the classifier head applied to [b] joined with [a]: the original
    pooled vectors in the opposite order. *)
Theorem forward_swap_eval p pm h hm (self : DpsaModel) (g : generator) a b w' :
  training self = false ->
  pooled_vectors p pm h hm (self, g) = (Ok (a, b), w') ->
  w' = (self, g) /\
  pooled_vectors h hm p pm (self, g) = (Ok (b, a), (self, g)) /\
  forward h hm p pm (self, g) = classify b a (self, g) /\
  forward p pm h hm (self, g) = classify a b (self, g).
Proof.
  intros Htr E. unfold pooled_vectors in E.
  apply bind_inv_ok in E as (x1 & w1 & E1 & E).
  assert (w1 = (self, g)) as -> by
    (pose proof (call_base_model_eval p pm self g Htr) as Hs;
     rewrite E1 in Hs; exact Hs).
  apply bind_inv_ok in E as (x2 & w2 & E2 & E).
  assert (w2 = (self, g)) as -> by
    (pose proof (call_base_model_eval h hm self g Htr) as Hs;
     rewrite E2 in Hs; exact Hs).
  apply bind_inv_ok in E as (y1 & w3 & E3 & E).
  assert (w3 = (self, g)) as -> by
    (pose proof (call_cross_model_eval x1 x2 hm self g Htr) as Hs;
     rewrite E3 in Hs; exact Hs).
  apply bind_inv_ok in E as (y2 & w4 & E4 & E).
  assert (w4 = (self, g)) as -> by
    (pose proof (call_cross_model_eval x2 x1 pm self g Htr) as Hs;
     rewrite E4 in Hs; exact Hs).
  rewrite (bind_ok _ _ _ _ _ (call_dropout_eval y1 self g Htr)) in E.
  rewrite (bind_ok _ _ _ _ _ (call_dropout_eval y2 self g Htr)) in E.
  apply bind_inv_ok in E as (a' & w5 & E5 & E).
  assert (w5 = (self, g)) as -> by
    (pose proof (pooler_eval y1 self g Htr) as Hs; rewrite E5 in Hs; exact Hs).
  apply bind_inv_ok in E as (b' & w6 & E6 & E).
  assert (w6 = (self, g)) as -> by
    (pose proof (pooler_eval y2 self g Htr) as Hs; rewrite E6 in Hs; exact Hs).
  unfold ret in E. inversion E; subst a' b' w'; clear E.
  assert (Hswap : pooled_vectors h hm p pm (self, g) = (Ok (b, a), (self, g))).
  { unfold pooled_vectors.
    rewrite (bind_ok _ _ _ _ _ E2), (bind_ok _ _ _ _ _ E1).
    rewrite (bind_ok _ _ _ _ _ E4), (bind_ok _ _ _ _ _ E3).
    rewrite (bind_ok _ _ _ _ _ (call_dropout_eval y2 self g Htr)).
    rewrite (bind_ok _ _ _ _ _ (call_dropout_eval y1 self g Htr)).
    now rewrite (bind_ok _ _ _ _ _ E6), (bind_ok _ _ _ _ _ E5). }
  assert (Horig : pooled_vectors p pm h hm (self, g) = (Ok (a, b), (self, g))).
  { unfold pooled_vectors.
    rewrite (bind_ok _ _ _ _ _ E1), (bind_ok _ _ _ _ _ E2).
    rewrite (bind_ok _ _ _ _ _ E3), (bind_ok _ _ _ _ _ E4).
    rewrite (bind_ok _ _ _ _ _ (call_dropout_eval y1 self g Htr)).
    rewrite (bind_ok _ _ _ _ _ (call_dropout_eval y2 self g Htr)).
    now rewrite (bind_ok _ _ _ _ _ E5), (bind_ok _ _ _ _ _ E6). }
  split; [reflexivity|]. split; [exact Hswap|]. split.
  - rewrite forward_pooled_classify. now rewrite (bind_ok _ _ _ _ _ Hswap).
  - rewrite forward_pooled_classify. now rewrite (bind_ok _ _ _ _ _ Horig).
Qed.

End SymmetryProperties.

(** ** Where a failing forward pass fails *)

Section FailureProperties.
Context `{Backend}.








(** When the two pooled vectors have different batch sizes the call
    fails in [torch.cat]. *)
Lemma forward_pooled_batch_mismatch p pm h hm w a b w1 :
  pooled_vectors p pm h hm w = (Ok (a, b), w1) ->
  length a <> length b ->
  forward p pm h hm w = (Raise RuntimeError, w1).
Proof.
  intros E Hne. rewrite forward_pooled_classify, (bind_ok _ _ _ _ _ E).
  cbn [fst snd]. rewrite classify_run. now rewrite torch_cat_mismatch.
Qed.


End FailureProperties.

(** ** The accuracy metric *)

Section AccuracyProperties.
Context `{Backend}.

(** [ltb] orders the scalars: strict, transitive, and incomparability
    is transitive (as [<] on floating-point numbers that are not NaN). *)
Hypothesis ltb_irrefl : forall x : scalar, ltb x x = false.
Hypothesis ltb_trans :
  forall x y z : scalar, ltb x y = true -> ltb y z = true -> ltb x z = true.
Hypothesis ltb_incomparable_trans :
  forall x y z : scalar, ltb x y = false -> ltb y z = false -> ltb x z = false.

Lemma argmax_from_spec (xs pre : Vec scalar) best best_i :
  pre !! best_i = Some best ->
  (forall j u, pre !! j = Some u -> ltb best u = false) ->
  (forall j u, j < best_i -> pre !! j = Some u -> ltb u best = true) ->
  first_argmax (pre ++ xs) (argmax_from best_i best (length pre) xs).
Proof.
  revert pre best best_i. induction xs as [|x xs IH]; intros pre best best_i Hb Hmax Hfirst.
  - simpl. rewrite app_nil_r. now exists best.
  - simpl. rewrite cons_middle, app_assoc.
    replace (S (length pre)) with (length (pre ++ [x])) by (rewrite length_app; simpl; lia).
    destruct (ltb best x) eqn:Elt.
    + apply IH.
      * rewrite lookup_app_r by lia. now rewrite Nat.sub_diag.
      * intros j u Hj. apply lookup_app_Some in Hj as [Hj|[_ Hj]].
        -- destruct (ltb x u) eqn:Exu; [|reflexivity].
           pose proof (Hmax j u Hj) as Hbu.
           rewrite (ltb_trans _ _ _ Elt Exu) in Hbu. discriminate.
        -- destruct (j - length pre) as [|k]; simpl in Hj; [|destruct k; discriminate].
           inversion Hj; subst. apply ltb_irrefl.
      * intros j u Hlt Hj. apply lookup_app_Some in Hj as [Hj|[Hge _]]; [|lia].
        destruct (ltb u x) eqn:Eux; [reflexivity|].
        rewrite (ltb_incomparable_trans _ _ _ (Hmax j u Hj) Eux) in Elt. discriminate.
    + apply IH.
      * rewrite lookup_app_l; [exact Hb|]. now apply lookup_lt_Some in Hb.
      * intros j u Hj. apply lookup_app_Some in Hj as [Hj|[_ Hj]].
        -- now apply (Hmax j).
        -- destruct (j - length pre) as [|k]; simpl in Hj; [|destruct k; discriminate].
           now inversion Hj; subst.
      * intros j u Hlt Hj. apply lookup_app_Some in Hj as [Hj|[Hge _]].
        -- now apply (Hfirst j).
        -- apply lookup_lt_Some in Hb. lia.
Qed.

Lemma argmax_spec (row : Vec scalar) :
  row <> [] -> exists p, argmax row = Ok p /\ first_argmax row p.
Proof.
  destruct row as [|x xs]; [contradiction|]. intros _.
  exists (argmax_from 0 x 1 xs). split; [reflexivity|].
  apply (argmax_from_spec xs [x] x 0).
  - reflexivity.
  - intros [|j] u Hj; simpl in Hj; [|destruct j; discriminate].
    inversion Hj; subst. apply ltb_irrefl.
  - intros j u Hlt. lia.
Qed.

Lemma torch_argmax_spec (logits : Tensor2 scalar) :
  Forall (fun row => row <> []) logits ->
  exists prediction,
    torch_argmax logits = Ok prediction /\ Forall2 first_argmax logits prediction.
Proof.
  unfold torch_argmax. induction 1 as [|row l Hrow _ (ps & E & Hps)].
  - now exists [].
  - destruct (argmax_spec row Hrow) as (p & Ep & Hp).
    exists (p :: ps). simpl. rewrite Ep, E. split; [reflexivity|].
    now constructor.
Qed.


(** The comparison [prediction == label] holds exactly where the
    predicted class is the label. *)
Lemma index_eqb_spec (p : nat) (l : Z) : index_eqb p l = true <-> Z.of_nat p = l.
Proof. unfold index_eqb. apply Z.eqb_eq. Qed.

Lemma tensor_float_hits (prediction : list nat) (labels : IntTensor1) :
  tensor_float (zip_with index_eqb prediction labels) =
  (hit_indicator prediction labels : Vec scalar).
Proof.
  unfold tensor_float, hit_indicator. revert labels.
  induction prediction as [|p ps IH]; intros [|l ls]; simpl; try reflexivity.
  rewrite IH. f_equal.
  destruct (decide (Z.of_nat p = l)) as [Heq|Hne].
  - apply index_eqb_spec in Heq. now rewrite Heq.
  - destruct (index_eqb p l) eqn:E; [|reflexivity].
    apply index_eqb_spec in E. contradiction.
Qed.


End AccuracyProperties.

(** ** The properties on the executable backend *)

Section ToyFacts.

Lemma qltb_lt (x y : Q) : Toy.qltb x y = true <-> (x < y)%Q.
Proof.
  unfold Toy.qltb. rewrite negb_true_iff. split.
  - intros E. apply Qnot_le_lt. intros Hle.
    apply Qle_bool_iff in Hle. congruence.
  - intros Hlt. destruct (Qle_bool y x) eqn:E; [|reflexivity].
    apply Qle_bool_iff in E. exfalso. exact (Qlt_not_le _ _ Hlt E).
Qed.

Lemma qltb_ge (x y : Q) : Toy.qltb x y = false <-> (y <= x)%Q.
Proof.
  unfold Toy.qltb. rewrite negb_false_iff. apply Qle_bool_iff.
Qed.

Lemma qltb_irrefl (x : Q) : Toy.qltb x x = false.
Proof. apply qltb_ge. apply Qle_refl. Qed.

Lemma qltb_trans (x y z : Q) :
  Toy.qltb x y = true -> Toy.qltb y z = true -> Toy.qltb x z = true.
Proof. rewrite !qltb_lt. apply Qlt_trans. Qed.

Lemma qltb_incomparable_trans (x y z : Q) :
  Toy.qltb x y = false -> Toy.qltb y z = false -> Toy.qltb x z = false.
Proof. rewrite !qltb_ge. intros Hyx Hzy. eapply Qle_trans; eauto. Qed.

Lemma toy_cell_length (w : Q) (x h : list Q) : length (Toy.toy_cell w x h) = length h.
Proof. unfold Toy.toy_cell. apply length_map. Qed.

Lemma map_state_length {A B S} (f : A -> S -> B * S) l s :
  length (fst (Toy.map_state f l s)) = length l.
Proof.
  revert s. induction l as [|x l IH]; intros s; simpl; [reflexivity|].
  destruct (f x s) as [y s1]. specialize (IH s1).
  destruct (Toy.map_state f l s1) as [ys s2]. simpl in *. now rewrite IH.
Qed.

Lemma map_state_Forall {A B S} (f : A -> S -> B * S) (P : A -> Prop) (Q : B -> Prop) l s :
  (forall x s, P x -> Q (fst (f x s))) ->
  Forall P l -> Forall Q (fst (Toy.map_state f l s)).
Proof.
  intros Hf Hl. revert s. induction Hl as [|x l Hx _ IH]; intros s; simpl.
  - constructor.
  - specialize (Hf x s Hx). destruct (f x s) as [y s1]. specialize (IH s1).
    destruct (Toy.map_state f l s1) as [ys s2]. simpl in *. now constructor.
Qed.

Lemma toy_dropout_shape (p : Q) (x : list (list (list Q))) (g : list bool) b t f :
  shape3 x b t f -> shape3 (fst (Toy.toy_dropout p x g)) b t f.
Proof.
  intros [Hb Hrows]. unfold Toy.toy_dropout. split.
  - now rewrite map_state_length.
  - eapply map_state_Forall; [|exact Hrows].
    intros seq s [Ht Hvs]. split.
    + now rewrite map_state_length.
    + eapply map_state_Forall; [|exact Hvs].
      intros v s' Hv. now rewrite map_state_length.
Qed.

End ToyFacts.

Section ToyRuns.
Import Toy.

Let eval_world : DpsaModel * generator := (toy_model false, []).
Let train_world : DpsaModel * generator := (toy_model true, keep_bits).

Lemma toy_encoder_pure (ids mask : list (list Z)) (s : Stack Q) (g g' : list bool) :
  toy_encoder false ids mask (s, g) = (fst (toy_encoder false ids mask (s, g')), (s, g)).
Proof. reflexivity. Qed.

Lemma toy_decoder_pure (x y : list (list (list Q))) (mask : list (list Z))
    (s : Stack Q) (g g' : list bool) :
  toy_decoder false x y mask (s, g) = (fst (toy_decoder false x y mask (s, g')), (s, g)).
Proof. reflexivity. Qed.

Lemma forward_swap_eval_witness :
  training (toy_model false) = false /\
  fst (pooled_vectors premise_ids premise_mask hypothesis_ids hypothesis_mask eval_world)
    = Ok ([[100]; [76]], [[40]; [45]])%Q /\
  pooled_vectors hypothesis_ids hypothesis_mask premise_ids premise_mask eval_world
    = (Ok ([[40]; [45]], [[100]; [76]])%Q, eval_world) /\
  forward hypothesis_ids hypothesis_mask premise_ids premise_mask eval_world
    = classify [[40]; [45]]%Q [[100]; [76]]%Q eval_world.
Proof.
  assert (E : fst (pooled_vectors premise_ids premise_mask hypothesis_ids
                     hypothesis_mask eval_world)
              = Ok ([[100]; [76]], [[40]; [45]])%Q)
    by (vm_compute; reflexivity).
  destruct (forward_swap_eval (H := backend) toy_encoder_pure toy_decoder_pure
              premise_ids premise_mask hypothesis_ids hypothesis_mask
              (toy_model false) [] _ _ _ eq_refl (run_split _ _ _ E))
    as (_ & Hswap & Hfwd & _).
  split; [reflexivity|]. split; [exact E|]. split; [exact Hswap|exact Hfwd].
Defined.

(** In training mode the two dropout calls draw their masks in call
    order, so the exchanged call does not yield the original pooled
    vectors in the opposite order. *)
Lemma forward_swap_training_counterexample :
  fst (pooled_vectors premise_ids premise_mask hypothesis_ids hypothesis_mask train_world)
    = Ok ([[264]; [156]], [[104]; [180]])%Q /\
  fst (classify [[104]; [180]]%Q [[264]; [156]]%Q train_world)
    = Ok [[104; 264]; [180; 156]]%Q /\
  fst (forward hypothesis_ids hypothesis_mask premise_ids premise_mask train_world)
    = Ok [[104; 72]; [180; 148]]%Q /\
  fst (forward hypothesis_ids hypothesis_mask premise_ids premise_mask train_world)
    <> fst (classify [[104]; [180]]%Q [[264]; [156]]%Q train_world).
Proof.
  split; [vm_compute; reflexivity|]. split; [vm_compute; reflexivity|].
  split; [vm_compute; reflexivity|]. vm_compute. discriminate.
Qed.

Lemma pooler_last_step_witness :
  shape3 hidden_sequence 2 3 1 /\
  exists g', pooler hidden_sequence train_world
               = (Ok [[14]; [8]]%Q, (toy_model true, g')) /\
             shape2 ([[14]; [8]]%Q : list (list Q)) 2 1.
Proof.
  assert (Hshape : shape3 hidden_sequence 2 3 1)
    by (split; [reflexivity|]; repeat constructor).
  split; [exact Hshape|].
  destruct (pooler_last_step (H := backend) toy_cell_length toy_dropout_shape
              (toy_model true) keep_bits hidden_sequence 2 3
              ltac:(discriminate) eq_refl Hshape ltac:(lia))
    as (top_in & w_top & out & h_n & pooled & g' & _ & Hpool & _ & _ & _ & _ & _ & _ & Hsh & _).
  exists g'.
  assert (Hval : fst (pooler hidden_sequence train_world) = Ok [[14]; [8]]%Q)
    by (vm_compute; reflexivity).
  assert (Heq : Ok pooled = Ok ([[14]; [8]]%Q : list (list Q))).
  { transitivity (fst (pooler hidden_sequence train_world)); [|exact Hval].
    symmetry. exact (f_equal fst Hpool). }
  inversion Heq; subst pooled. split; [exact Hpool|exact Hsh].
Defined.

Lemma slice_transformers_partition_witness :
  exists base cross,
    slice_transformers "toy-4" 2 = Ok (base, cross) /\
    stack_layers base = [1; 2]%Q /\ stack_layers cross = [3; 4]%Q /\
    stack_layers base ++ stack_layers cross = [1; 2; 3; 4]%Q.
Proof.
  destruct (slice_transformers_partition (H := backend) "toy-4" 2
              {| encoder_layers := [1; 2; 3; 4]%Q; cross_capable := true |}
              eq_refl eq_refl ltac:(simpl; lia))
    as (base & cross & Hs & Hb & Hc & Happ & _).
  exists base, cross. split; [exact Hs|]. split; [exact Hb|]. split; [exact Hc|exact Happ].
Defined.

Lemma DpsaModel_init_pivot_out_of_range_witness :
  DpsaModel_init "toy-4" 0 (1 # 2)%Q 2 3 [] = (Raise ConfigurationError, []) /\
  DpsaModel_init "toy-4" 4 (1 # 2)%Q 2 3 [] = (Raise ConfigurationError, []).
Proof.
  split; apply (DpsaModel_init_pivot_out_of_range (H := backend));
    intros enc E; vm_compute in E; inversion E; subst; simpl; lia.
Defined.




Lemma forward_preserves_model_witness :
  fst (snd (forward premise_ids premise_mask hypothesis_ids hypothesis_mask train_world))
    = toy_model true.
Proof.
  exact (forward_preserves_model (H := backend) premise_ids premise_mask
           hypothesis_ids hypothesis_mask train_world
           (fun _ _ _ _ _ => eq_refl) (fun _ _ _ _ _ _ => eq_refl)).
Defined.

Lemma configure_optimizers_spec_witness :
  OPTMIZER_DIC !! "SGD"%string = None /\
  exists output optimizer,
    configure_optimizers (toy_module "SGD") = Ok output /\
    output !! "optimizer"%string = Some (OptimizerValue optimizer) /\
    optimizer_cls optimizer = Adam /\
    output !! "monitor"%string = Some (StrValue "val_loss").
Proof.
  destruct (configure_optimizers_spec (H := backend) (toy_module "SGD"))
    as (_ & _ & Hnone & Hret & Hout).
  split; [apply Hnone; discriminate|].
  destruct (Hret eq_refl eq_refl) as (output & E).
  destruct (Hout output E) as (optimizer & scheduler & Ho & _ & Hm & _ & Hcls & _).
  exists output, optimizer. repeat split; assumption.
Defined.

Lemma step_accuracy_keys_witness :
  exists output s',
    validation_step toy_batch 0 toy_harness = (Ok output, s') /\
    output !! "val_accucary"%string = Some 1%Q /\
    output !! "val_accuracy"%string = None /\
    last (logged s') = Some output.
Proof.
  destruct (step_accuracy_keys (H := backend) toy_batch 0 toy_harness)
    as (_ & Hval & _ & Hnone).
  unfold step_outcome in Hval.
  assert (Hm : fst (_metric_forward toy_batch toy_harness) = Ok (0, 1)%Q)
    by (vm_compute; reflexivity).
  destruct (_metric_forward toy_batch toy_harness) as [[[loss accuracy]|e] s1];
    simpl in Hm; [|discriminate].
  inversion Hm; subst loss accuracy; clear Hm.
  destruct Hval as (output & Hstep & Hacc & _).
  destruct (Hnone output _ Hstep) as [Hmiss Hlog].
  eexists output, _. split; [exact Hstep|]. split; [exact Hacc|].
  split; [exact Hmiss|exact Hlog].
Defined.

End ToyRuns.

(** * Further properties of the code *)

(** ** Evaluation mode: no randomness, no state change *)

Section EvalDeterminism.
Context `{Backend}.

Hypothesis encoder_eval_pure :
  forall ids mask s g g',
    encoder_forward false ids mask (s, g) =
    (fst (encoder_forward false ids mask (s, g')), (s, g)).
Hypothesis decoder_eval_pure :
  forall x y mask s g g',
    decoder_forward false x y mask (s, g) =
    (fst (decoder_forward false x y mask (s, g')), (s, g)).

Lemma eval_pure_bind {A B} (m : M (DpsaModel * generator) A)
    (k : A -> M (DpsaModel * generator) B) :
  eval_pure m -> (forall a, eval_pure (k a)) -> eval_pure (bind m k).
Proof.
  intros Hm Hk self g g' Htr. unfold bind.
  pose proof (Hm self g g' Htr) as E1. pose proof (Hm self g' g' Htr) as E2.
  destruct (m (self, g')) as [r s1]. simpl in *. rewrite E1.
  inversion E2; subst s1. destruct r as [a|e]; [|reflexivity].
  now apply Hk.
Qed.

Lemma eval_pure_ret {A} (a : A) : eval_pure (ret a).
Proof. now intros self g g' _. Qed.

Lemma eval_pure_lift_result {A} (r : result A) : eval_pure (lift_result r).
Proof. now intros self g g' _. Qed.

Lemma eval_pure_call_base_model ids mask : eval_pure (call_base_model ids mask).
Proof.
  intros self g g' Htr. unfold call_base_model, zoom. simpl. rewrite Htr.
  rewrite (encoder_eval_pure ids mask (base_model self) g g').
  rewrite (encoder_eval_pure ids mask (base_model self) g' g'). simpl.
  now rewrite set_base_model_same.
Qed.

Lemma eval_pure_call_cross_model x y mask : eval_pure (call_cross_model x y mask).
Proof.
  intros self g g' Htr. unfold call_cross_model, zoom. simpl. rewrite Htr.
  rewrite (decoder_eval_pure x y mask (cross_model self) g g').
  rewrite (decoder_eval_pure x y mask (cross_model self) g' g'). simpl.
  now rewrite set_cross_model_same.
Qed.

Lemma eval_pure_call_dropout x : eval_pure (call_dropout x).
Proof.
  intros self g g' Htr. now rewrite !call_dropout_eval.
Qed.

(** In evaluation mode the reducer is the plain composition of its
    layers and leaves the generator alone. *)
Lemma gru_layers_eval_run p hs ws x g :
  exists h_n, gru_layers p false hs ws x g = (Ok (gru_eval_output hs ws x, h_n), g).
Proof.
  revert x. induction ws as [|w ws IH]; intros x.
  - now exists [].
  - destruct ws as [|w' ws'].
    + now eexists.
    + destruct (IH (gru_layer w hs x)) as (h_n & E).
      exists (gru_final hs (gru_layer w hs x) :: h_n).
      change (gru_layers p false hs (w :: w' :: ws') x g) with
        (bind (gru_layers p false hs (w' :: ws') (gru_layer w hs x))
           (fun r => match r with
                     | (out, h_n) => ret (out, gru_final hs (gru_layer w hs x) :: h_n)
                     end) g).
      now rewrite (bind_ok _ _ _ _ _ E).
Qed.

Lemma GRU_forward_eval_indep r x g g' :
  GRU_forward r false x g = (fst (GRU_forward r false x g'), g).
Proof.
  unfold GRU_forward. destruct (gru_input_ok _ x); [|reflexivity].
  destruct (gru_layers_eval_run (gru_dropout r) (gru_hidden_size r)
              (gru_weights r) x g) as (h_n & E).
  destruct (gru_layers_eval_run (gru_dropout r) (gru_hidden_size r)
              (gru_weights r) x g') as (h_n' & E').
  rewrite E, E'. simpl. f_equal. f_equal. f_equal.
  revert x h_n h_n' E E'. generalize (gru_dropout r) (gru_hidden_size r).
  intros p hs. induction (gru_weights r) as [|w ws IH]; intros x h_n h_n' E E'.
  - simpl in E, E'. unfold ret in *. congruence.
  - destruct ws as [|w' ws'].
    + simpl in E, E'. unfold ret in *. congruence.
    + destruct (gru_layers_eval_run p hs (w' :: ws') (gru_layer w hs x) g) as (t & Et).
      destruct (gru_layers_eval_run p hs (w' :: ws') (gru_layer w hs x) g') as (t' & Et').
      specialize (IH _ _ _ Et Et').
      change (gru_layers p false hs (w :: w' :: ws') x g) with
        (bind (gru_layers p false hs (w' :: ws') (gru_layer w hs x))
           (fun r => match r with
                     | (out, h_n) => ret (out, gru_final hs (gru_layer w hs x) :: h_n)
                     end) g) in E.
      change (gru_layers p false hs (w :: w' :: ws') x g') with
        (bind (gru_layers p false hs (w' :: ws') (gru_layer w hs x))
           (fun r => match r with
                     | (out, h_n) => ret (out, gru_final hs (gru_layer w hs x) :: h_n)
                     end) g') in E'.
      rewrite (bind_ok _ _ _ _ _ Et) in E. rewrite (bind_ok _ _ _ _ _ Et') in E'.
      unfold ret in *. congruence.
Qed.

Lemma eval_pure_call_reducer x : eval_pure (call_reducer x).
Proof.
  intros self g g' Htr. unfold call_reducer. rewrite !with_generator_run, Htr.
  now rewrite (GRU_forward_eval_indep (reducer self) x g g').
Qed.

Lemma eval_pure_call_linear x : eval_pure (call_linear x).
Proof.
  intros self g g' _. unfold call_linear. now rewrite !with_generator_run.
Qed.

Lemma eval_pure_pooler x : eval_pure (pooler x).
Proof.
  unfold pooler. apply eval_pure_bind; [apply eval_pure_call_reducer|].
  intros out. apply eval_pure_lift_result.
Qed.

Lemma eval_pure_pooled_vectors p pm h hm : eval_pure (pooled_vectors p pm h hm).
Proof.
  unfold pooled_vectors.
  repeat first
    [ apply eval_pure_pooler
    | apply eval_pure_bind; [|intros ?]
    | apply eval_pure_call_base_model | apply eval_pure_call_cross_model
    | apply eval_pure_call_dropout | apply eval_pure_ret ].
Qed.

Lemma eval_pure_forward p pm h hm : eval_pure (forward p pm h hm).
Proof.
  unfold forward.
  repeat first
    [ apply eval_pure_pooler
    | apply eval_pure_bind; [|intros ?]
    | apply eval_pure_call_base_model | apply eval_pure_call_cross_model
    | apply eval_pure_call_dropout | apply eval_pure_call_linear
    | apply eval_pure_lift_result | apply eval_pure_ret ].
Qed.

(** X1: in evaluation mode a forward call consumes no randomness and
    changes nothing: it hands back the model and the generator it was
    given, its result is the same from every generator state, and so a
    second call right after the first returns the same result. *)
Theorem forward_eval_deterministic p pm h hm (self : DpsaModel) (g g' : generator) :
  training self = false ->
  forward p pm h hm (self, g) = (fst (forward p pm h hm (self, g')), (self, g)) /\
  forward p pm h hm (snd (forward p pm h hm (self, g))) = forward p pm h hm (self, g).
Proof.
  intros Htr. pose proof (eval_pure_forward p pm h hm self g g' Htr) as E.
  split; [exact E|]. now rewrite E.
Qed.

End EvalDeterminism.

(** ** Shapes: from the cross stack's output to the logits *)

Section HeadShapes.
Context `{Backend}.

Hypothesis gru_cell_length :
  forall w x h, length (gru_cell w x h) = length h.
Hypothesis dropout_train_shape :
  forall p x g b t f, shape3 x b t f -> shape3 (fst (dropout_train p x g)) b t f.

Lemma same_head_refl self : same_head self self.
Proof. now repeat split. Qed.

Lemma same_head_trans s1 s2 s3 : same_head s1 s2 -> same_head s2 s3 -> same_head s1 s3.
Proof.
  intros (A1 & A2 & A3 & A4) (B1 & B2 & B3 & B4). repeat split; congruence.
Qed.

Lemma keeps_head_bind {A B} (m : M (DpsaModel * generator) A)
    (k : A -> M (DpsaModel * generator) B) :
  (forall w, same_head (fst w) (fst (snd (m w)))) ->
  (forall a w, same_head (fst w) (fst (snd (k a w)))) ->
  forall w, same_head (fst w) (fst (snd (bind m k w))).
Proof.
  intros Hm Hk w. unfold bind. specialize (Hm w).
  destruct (m w) as [[a|e] w1]; simpl in *; [|exact Hm].
  eapply same_head_trans; [exact Hm|apply Hk].
Qed.

Lemma keeps_head_call_base_model ids mask w :
  same_head (fst w) (fst (snd (call_base_model ids mask w))).
Proof.
  destruct w as [self g]. unfold call_base_model, zoom. simpl.
  destruct (encoder_forward _ _ _ _) as [r [s' g']]. simpl. now repeat split.
Qed.

Lemma keeps_head_call_cross_model x y mask w :
  same_head (fst w) (fst (snd (call_cross_model x y mask w))).
Proof.
  destruct w as [self g]. unfold call_cross_model, zoom. simpl.
  destruct (decoder_forward _ _ _ _ _) as [r [s' g']]. simpl. now repeat split.
Qed.

Lemma keeps_head_call_dropout x w :
  same_head (fst w) (fst (snd (call_dropout x w))).
Proof.
  destruct w as [self g]. unfold call_dropout. rewrite with_generator_run.
  apply same_head_refl.
Qed.

(** Whatever the stacks do to themselves, the part of [forward] up to
    dropout leaves reducer, dropout, linear layer and mode as they were. *)
Lemma dropped_states_keeps_head p pm h hm w :
  same_head (fst w) (fst (snd (dropped_states p pm h hm w))).
Proof.
  revert w. unfold dropped_states.
  repeat first
    [ apply keeps_head_bind; [|intros ?]
    | apply keeps_head_call_base_model | apply keeps_head_call_cross_model
    | apply keeps_head_call_dropout
    | intros w; apply same_head_refl ].
Qed.

Lemma pooler_returns (self : DpsaModel) (g : generator) (x : Tensor3 scalar) b t hs :
  gru_weights (reducer self) <> [] ->
  gru_input_size (reducer self) = hs ->
  gru_hidden_size (reducer self) = hs ->
  shape3 x b t hs -> 1 <= t ->
  exists pooled g',
    pooler x (self, g) = (Ok pooled, (self, g')) /\ shape2 pooled b hs.
Proof.
  intros Hne Hin Hhid Hx Ht.
  destruct (gru_layers_top gru_cell_length dropout_train_shape
              (gru_dropout (reducer self)) (training self) hs
              (gru_weights (reducer self)) x g b t Hne Hx)
    as (top_in & w_top & out & h_n & g' & Erun & _ & Htop & Hout & _).
  destruct (select_last_layer w_top hs top_in b t hs Htop Ht) as [Hsel _].
  eexists _, g'. split.
  - unfold pooler, bind, call_reducer. rewrite with_generator_run.
    unfold GRU_forward. rewrite Hhid, Hin, (gru_input_ok_shape hs x b t Hx Ht).
    rewrite Erun. simpl. unfold lift_result. now rewrite Hout, Hsel.
  - destruct Htop as [Hb Hrows]. split.
    + now rewrite length_map.
    + apply Forall_map. apply Forall_forall. intros seq _. simpl.
      rewrite (fold_cell_length gru_cell_length). apply repeat_length.
Qed.

Lemma classify_shape (l : Linear scalar) (u v : Tensor2 scalar) b hs c :
  shape2 u b hs -> shape2 v b hs ->
  in_features l = 2 * hs -> length (weight l) = c -> length (bias l) = c ->
  exists logits,
    result_bind (torch_cat u v) (Linear_forward l) = Ok logits /\
    shape2 logits b c.
Proof.
  intros [Hub Hu] [Hvb Hv] Hin Hw Hb.
  unfold torch_cat. replace (Nat.eqb _ _) with true
    by (symmetry; apply Nat.eqb_eq; lia).
  simpl. unfold Linear_forward.
  assert (Hrows : Forall (fun row : list scalar => length row = 2 * hs)
                         (zip_with (fun a b => a ++ b) u v)).
  { clear Hub Hvb. revert v Hv. induction Hu as [|a u Ha _ IH]; intros v Hv.
    - constructor.
    - destruct Hv as [|a' v Ha' Hv]; simpl; constructor.
      + rewrite length_app. lia.
      + now apply IH. }
  replace (forallb _ _) with true.
  - eexists. split; [reflexivity|]. split.
    + rewrite length_map, length_zip_with. lia.
    + apply Forall_map. apply Forall_forall. intros row _. simpl.
      rewrite length_zip_with. lia.
  - symmetry. apply forallb_forall. intros row Hrow. apply Nat.eqb_eq.
    rewrite Hin. rewrite Forall_forall in Hrows. apply Hrows.
    now apply list_elem_of_In.
Qed.

(** X2: for a model whose reducer and head fit hidden size [hs] and [c]
    classes, once the stacks and dropout have produced two sequences of
    shapes (b, t1, hs) and (b, t2, hs) with at least one position each,
    the rest of [forward] cannot fail: the call returns logits of shape
    (b, c), one row per example and one score per class.  The two
    sequence lengths need not agree. *)
Theorem forward_returns_logits p pm h hm (w w1 : DpsaModel * generator)
    (x1 x2 : Tensor3 scalar) (b t1 t2 hs c : nat) :
  well_formed_head (fst w) hs c ->
  dropped_states p pm h hm w = (Ok (x1, x2), w1) ->
  shape3 x1 b t1 hs -> 1 <= t1 ->
  shape3 x2 b t2 hs -> 1 <= t2 ->
  exists logits g',
    forward p pm h hm w = (Ok logits, (fst w1, g')) /\ shape2 logits b c.
Proof.
  intros (Hne & Hin & Hhid & Hlin & Hw & Hb) E Hx1 Ht1 Hx2 Ht2.
  pose proof (dropped_states_keeps_head p pm h hm w) as (Hr & _ & Hl & _).
  rewrite E in Hr, Hl. simpl in Hr, Hl. destruct w1 as [self1 g1]. simpl in *.
  rewrite <- Hr in Hne, Hin, Hhid. rewrite <- Hl in Hlin, Hw, Hb.
  destruct (pooler_returns self1 g1 x1 b t1 hs Hne Hin Hhid Hx1 Ht1)
    as (u & g2 & Eu & Hu).
  destruct (pooler_returns self1 g2 x2 b t2 hs Hne Hin Hhid Hx2 Ht2)
    as (v & g3 & Ev & Hv).
  destruct (classify_shape (linear self1) u v b hs c Hu Hv Hlin Hw Hb)
    as (logits & Ec & Hshape).
  exists logits, g3. split; [|exact Hshape].
  rewrite forward_pooled_classify.
  assert (Ep : pooled_vectors p pm h hm w = (Ok (u, v), (self1, g3))).
  { rewrite pooled_vectors_dropped, (bind_ok _ _ _ _ _ E). cbn [fst snd].
    rewrite (bind_ok _ _ _ _ _ Eu). now rewrite (bind_ok _ _ _ _ _ Ev). }
  rewrite (bind_ok _ _ _ _ _ Ep). cbn [fst snd]. rewrite classify_run.
  simpl. now rewrite Ec.
Qed.

(** Constructors of [nn.GRU] and [nn.Linear] store the sizes they are
    given: the GRU gets the requested number of layers, the linear layer
    a weight row and a bias entry per output. *)
Hypothesis GRU_init_sizes :
  forall input hidden n p g r g',
    GRU_init input hidden n p g = (Ok r, g') ->
    gru_input_size r = input /\ gru_hidden_size r = hidden /\
    length (gru_weights r) = n.
Hypothesis Linear_init_sizes :
  forall n_in n_out g l g',
    Linear_init n_in n_out g = (Ok l, g') ->
    in_features l = n_in /\ length (weight l) = n_out /\ length (bias l) = n_out.

(** X3: a model that [DpsaModel.__init__] returns, built with at least
    one reducer layer, has a reducer reading and keeping vectors of the
    encoder's hidden size and a linear layer from twice that size to
    [num_class] scores, and it starts out in training mode. *)
Theorem DpsaModel_init_well_formed model_name pivot d n c g self g' :
  1 <= n ->
  DpsaModel_init model_name pivot d n c g = (Ok self, g') ->
  exists config,
    AutoConfig_from_pretrained model_name = Ok config /\
    well_formed_head self (hidden_size config) c /\
    length (gru_weights (reducer self)) = n /\
    training self = true.
Proof.
  intros Hn E. unfold DpsaModel_init in E.
  apply bind_inv_ok in E as ([base cross] & g1 & _ & E).
  apply bind_inv_ok in E as (config & g2 & Ecfg & E).
  apply bind_inv_ok in E as (gru & g3 & Egru & E).
  apply bind_inv_ok in E as (dr & g4 & _ & E).
  apply bind_inv_ok in E as (lin & g5 & Elin & E).
  unfold ret in E. inversion E; subst self g'; clear E.
  unfold lift_result in Ecfg. inversion Ecfg as [[Hc Hg]].
  apply GRU_init_sizes in Egru as (Gi & Gh & Gn).
  apply Linear_init_sizes in Elin as (Li & Lw & Lb).
  exists config. split; [exact Hc|]. split; [|split; [exact Gn|reflexivity]].
  unfold well_formed_head. simpl. repeat split; try assumption.
  intros Hnil. rewrite Hnil in Gn. simpl in Gn. lia.
Qed.

End HeadShapes.

(** ** Batch independence in evaluation mode *)

Section BatchIndependence.
Context `{Backend}.

Hypothesis encoder_eval_pure :
  forall ids mask s g g',
    encoder_forward false ids mask (s, g) =
    (fst (encoder_forward false ids mask (s, g')), (s, g)).
Hypothesis decoder_eval_pure :
  forall x y mask s g g',
    decoder_forward false x y mask (s, g) =
    (fst (decoder_forward false x y mask (s, g')), (s, g)).

(** The stacks treat the examples of a batch one by one: they return a
    row per example, and on two batches put one after the other they
    return the rows of the first followed by the rows of the second. *)
Hypothesis encoder_batch :
  forall ids mask s g r,
    length mask = length ids ->
    fst (encoder_forward false ids mask (s, g)) = Ok r -> length r = length ids.
Hypothesis encoder_batchwise :
  forall s g ids1 m1 ids2 m2 r1 r2,
    length m1 = length ids1 -> length m2 = length ids2 ->
    fst (encoder_forward false ids1 m1 (s, g)) = Ok r1 ->
    fst (encoder_forward false ids2 m2 (s, g)) = Ok r2 ->
    fst (encoder_forward false (ids1 ++ ids2) (m1 ++ m2) (s, g)) = Ok (r1 ++ r2).
Hypothesis decoder_batchwise :
  forall s g x1 y1 m1 x2 y2 m2 r1 r2,
    length y1 = length x1 -> length m1 = length x1 ->
    length y2 = length x2 -> length m2 = length x2 ->
    fst (decoder_forward false x1 y1 m1 (s, g)) = Ok r1 ->
    fst (decoder_forward false x2 y2 m2 (s, g)) = Ok r2 ->
    fst (decoder_forward false (x1 ++ x2) (y1 ++ y2) (m1 ++ m2) (s, g))
      = Ok (r1 ++ r2).

Lemma result_mapM_app {A B} (f : A -> result B) l1 l2 r1 r2 :
  result_mapM f l1 = Ok r1 -> result_mapM f l2 = Ok r2 ->
  result_mapM f (l1 ++ l2) = Ok (r1 ++ r2).
Proof.
  revert r1. induction l1 as [|x l1 IH]; simpl; intros r1 E1 E2.
  - now inversion E1.
  - destruct (f x) as [y|e]; [|discriminate].
    destruct (result_mapM f l1) as [ys|e]; [|discriminate].
    inversion E1; subst. now rewrite (IH ys eq_refl E2).
Qed.

Lemma gru_eval_output_app hs ws (x y : Tensor3 scalar) :
  gru_eval_output hs ws (x ++ y) = gru_eval_output hs ws x ++ gru_eval_output hs ws y.
Proof.
  unfold gru_eval_output. revert x y.
  induction ws as [|w ws IH]; intros x y; cbn [fold_left].
  - reflexivity.
  - replace (gru_layer w hs (x ++ y)) with (gru_layer w hs x ++ gru_layer w hs y)
      by (unfold gru_layer; symmetry; apply List.map_app).
    apply IH.
Qed.

Lemma pooler_eval_form (self : DpsaModel) (g : generator) (x : Tensor3 scalar) :
  training self = false ->
  fst (pooler x (self, g)) =
    if gru_input_ok (gru_input_size (reducer self)) x
    then select_last (gru_eval_output (gru_hidden_size (reducer self))
                                      (gru_weights (reducer self)) x)
    else Raise RuntimeError.
Proof.
  intros Htr. unfold pooler, bind, call_reducer. rewrite with_generator_run.
  unfold GRU_forward. rewrite Htr. destruct (gru_input_ok _ x); [|reflexivity].
  destruct (gru_layers_eval_run (gru_dropout (reducer self))
              (gru_hidden_size (reducer self)) (gru_weights (reducer self)) x g)
    as (h_n & E).
  now rewrite E.
Qed.

Lemma pooler_batchwise (self : DpsaModel) (g : generator) (y y' : Tensor3 scalar) a a' :
  training self = false ->
  fst (pooler y (self, g)) = Ok a -> fst (pooler y' (self, g)) = Ok a' ->
  fst (pooler (y ++ y') (self, g)) = Ok (a ++ a').
Proof.
  intros Htr. rewrite !pooler_eval_form by exact Htr. rewrite gru_input_ok_app.
  destruct (gru_input_ok _ y); [|discriminate].
  destruct (gru_input_ok _ y'); [|discriminate].
  simpl. rewrite gru_eval_output_app. unfold select_last. apply result_mapM_app.
Qed.

Lemma classify_batchwise (l : Linear scalar) (a b a' b' : Tensor2 scalar) l1 l2 :
  result_bind (torch_cat a b) (Linear_forward l) = Ok l1 ->
  result_bind (torch_cat a' b') (Linear_forward l) = Ok l2 ->
  result_bind (torch_cat (a ++ a') (b ++ b')) (Linear_forward l) = Ok (l1 ++ l2).
Proof.
  unfold torch_cat.
  destruct (Nat.eqb (length a) (length b)) eqn:E1; [|discriminate].
  destruct (Nat.eqb (length a') (length b')) eqn:E2; [|discriminate].
  apply Nat.eqb_eq in E1, E2. simpl. intros H1 H2.
  replace (Nat.eqb (length (a ++ a')) (length (b ++ b'))) with true
    by (symmetry; apply Nat.eqb_eq; rewrite !length_app; lia).
  simpl. rewrite zip_with_app by exact E1.
  unfold Linear_forward in *. rewrite forallb_app.
  destruct (forallb _ (zip_with _ a b)); [|discriminate].
  destruct (forallb _ (zip_with _ a' b')); [|discriminate].
  simpl. rewrite map_app. inversion H1; inversion H2; reflexivity.
Qed.

Lemma eval_pure_run {A} (m : M (DpsaModel * generator) A) self g r :
  eval_pure m -> training self = false ->
  fst (m (self, g)) = r -> m (self, g) = (r, (self, g)).
Proof. intros Hm Htr E. rewrite (Hm self g g Htr). now rewrite E. Qed.

Lemma eval_pure_state {A} (m : M (DpsaModel * generator) A) self g a w :
  eval_pure m -> training self = false ->
  m (self, g) = (Ok a, w) -> w = (self, g).
Proof. intros Hm Htr E. rewrite (Hm self g g Htr) in E. now inversion E. Qed.

Lemma call_base_model_fst ids mask (self : DpsaModel) (g : generator) :
  fst (call_base_model ids mask (self, g)) =
  fst (encoder_forward (training self) ids mask (base_model self, g)).
Proof.
  unfold call_base_model, zoom. simpl. now destruct (encoder_forward _ _ _ _).
Qed.

Lemma call_cross_model_fst x y mask (self : DpsaModel) (g : generator) :
  fst (call_cross_model x y mask (self, g)) =
  fst (decoder_forward (training self) x y mask (cross_model self, g)).
Proof.
  unfold call_cross_model, zoom. simpl. now destruct (decoder_forward _ _ _ _ _).
Qed.

(** The steps of a successful evaluation-mode forward call. *)
Lemma forward_eval_steps p pm h hm (self : DpsaModel) (g : generator) logits :
  training self = false ->
  fst (forward p pm h hm (self, g)) = Ok logits ->
  exists x1 x2 y1 y2 a b,
    fst (encoder_forward false p pm (base_model self, g)) = Ok x1 /\
    fst (encoder_forward false h hm (base_model self, g)) = Ok x2 /\
    fst (decoder_forward false x1 x2 hm (cross_model self, g)) = Ok y1 /\
    fst (decoder_forward false x2 x1 pm (cross_model self, g)) = Ok y2 /\
    fst (pooler y1 (self, g)) = Ok a /\
    fst (pooler y2 (self, g)) = Ok b /\
    result_bind (torch_cat a b) (Linear_forward (linear self)) = Ok logits.
Proof.
  intros Htr E.
  apply (eval_pure_run _ _ _ _
           (eval_pure_forward encoder_eval_pure decoder_eval_pure p pm h hm) Htr) in E.
  rewrite forward_pooled_classify in E.
  apply bind_inv_ok in E as ([a b] & w & Ep & Ec).
  pose proof (eval_pure_state _ _ _ _ _
                (eval_pure_pooled_vectors encoder_eval_pure decoder_eval_pure
                   p pm h hm) Htr Ep) as ->.
  cbn [fst snd] in Ec. rewrite classify_run in Ec.
  apply (f_equal fst) in Ec. cbn [fst] in Ec.
  unfold pooled_vectors in Ep.
  apply bind_inv_ok in Ep as (x1 & w1 & E1 & Ep).
  pose proof (eval_pure_state _ _ _ _ _
                (eval_pure_call_base_model encoder_eval_pure p pm) Htr E1) as ->.
  apply bind_inv_ok in Ep as (x2 & w2 & E2 & Ep).
  pose proof (eval_pure_state _ _ _ _ _
                (eval_pure_call_base_model encoder_eval_pure h hm) Htr E2) as ->.
  apply bind_inv_ok in Ep as (y1 & w3 & E3 & Ep).
  pose proof (eval_pure_state _ _ _ _ _
                (eval_pure_call_cross_model decoder_eval_pure x1 x2 hm) Htr E3) as ->.
  apply bind_inv_ok in Ep as (y2 & w4 & E4 & Ep).
  pose proof (eval_pure_state _ _ _ _ _
                (eval_pure_call_cross_model decoder_eval_pure x2 x1 pm) Htr E4) as ->.
  rewrite (bind_ok _ _ _ _ _ (call_dropout_eval y1 self g Htr)) in Ep.
  rewrite (bind_ok _ _ _ _ _ (call_dropout_eval y2 self g Htr)) in Ep.
  apply bind_inv_ok in Ep as (a' & w5 & E5 & Ep).
  pose proof (eval_pure_state _ _ _ _ _ (eval_pure_pooler y1) Htr E5) as ->.
  apply bind_inv_ok in Ep as (b' & w6 & E6 & Ep).
  unfold ret in Ep. inversion Ep; subst a' b' w6; clear Ep.
  exists x1, x2, y1, y2, a, b.
  apply (f_equal fst) in E1, E2, E3, E4, E5, E6.
  rewrite call_base_model_fst, Htr in E1, E2.
  rewrite call_cross_model_fst, Htr in E3, E4.
  simpl in *. repeat split; assumption.
Qed.

(** X4: in evaluation mode, with stacks that treat the examples of a
    batch one by one, [forward] does too: on two batches with consistent
    batch sizes put one after the other it returns the logits of the
    first followed by the logits of the second. *)
Theorem forward_batch_independent
    p1 pm1 h1 hm1 p2 pm2 h2 hm2 (self : DpsaModel) (g : generator) l1 l2 :
  training self = false ->
  length pm1 = length p1 -> length h1 = length p1 -> length hm1 = length p1 ->
  length pm2 = length p2 -> length h2 = length p2 -> length hm2 = length p2 ->
  fst (forward p1 pm1 h1 hm1 (self, g)) = Ok l1 ->
  fst (forward p2 pm2 h2 hm2 (self, g)) = Ok l2 ->
  forward (p1 ++ p2) (pm1 ++ pm2) (h1 ++ h2) (hm1 ++ hm2) (self, g)
    = (Ok (l1 ++ l2), (self, g)).
Proof.
  intros Htr Lpm1 Lh1 Lhm1 Lpm2 Lh2 Lhm2 F1 F2.
  apply forward_eval_steps in F1 as (x1 & x2 & y1 & y2 & a & b & A1 & A2 & A3 & A4 & A5 & A6 & A7);
    [|exact Htr].
  apply forward_eval_steps in F2 as (x1' & x2' & y1' & y2' & a' & b' & B1 & B2 & B3 & B4 & B5 & B6 & B7);
    [|exact Htr].
  assert (Lhm1' : length hm1 = length h1) by lia.
  assert (Lhm2' : length hm2 = length h2) by lia.
  pose proof (encoder_batch _ _ _ _ _ Lpm1 A1) as Lx1.
  pose proof (encoder_batch _ _ _ _ _ Lhm1' A2) as Lx2.
  pose proof (encoder_batch _ _ _ _ _ Lpm2 B1) as Lx1'.
  pose proof (encoder_batch _ _ _ _ _ Lhm2' B2) as Lx2'.
  pose proof (encoder_batchwise _ _ _ _ _ _ _ _ Lpm1 Lpm2 A1 B1) as C1.
  pose proof (encoder_batchwise _ _ _ _ _ _ _ _ Lhm1' Lhm2' A2 B2) as C2.
  assert (D1 : length x2 = length x1) by lia.
  assert (D2 : length hm1 = length x1) by lia.
  assert (D3 : length x2' = length x1') by lia.
  assert (D4 : length hm2 = length x1') by lia.
  assert (D5 : length x1 = length x2) by lia.
  assert (D6 : length pm1 = length x2) by lia.
  assert (D7 : length x1' = length x2') by lia.
  assert (D8 : length pm2 = length x2') by lia.
  pose proof (decoder_batchwise _ _ _ _ _ _ _ _ _ _ D1 D2 D3 D4 A3 B3) as C3.
  pose proof (decoder_batchwise _ _ _ _ _ _ _ _ _ _ D5 D6 D7 D8 A4 B4) as C4.
  pose proof (pooler_batchwise self g y1 y1' a a' Htr A5 B5) as C5.
  pose proof (pooler_batchwise self g y2 y2' b b' Htr A6 B6) as C6.
  pose proof (classify_batchwise _ _ _ _ _ _ _ A7 B7) as C7.
  rewrite <- Htr in C1, C2, C3, C4.
  rewrite <- call_base_model_fst in C1, C2.
  rewrite <- call_cross_model_fst in C3, C4.
  apply (eval_pure_run _ _ _ _ (eval_pure_call_base_model encoder_eval_pure _ _) Htr)
    in C1, C2.
  apply (eval_pure_run _ _ _ _ (eval_pure_call_cross_model decoder_eval_pure _ _ _) Htr)
    in C3, C4.
  apply (eval_pure_run _ _ _ _ (eval_pure_pooler _) Htr) in C5, C6.
  rewrite forward_pooled_classify.
  assert (Ep : pooled_vectors (p1 ++ p2) (pm1 ++ pm2) (h1 ++ h2) (hm1 ++ hm2) (self, g)
               = (Ok (a ++ a', b ++ b'), (self, g))).
  { unfold pooled_vectors.
    rewrite (bind_ok _ _ _ _ _ C1), (bind_ok _ _ _ _ _ C2).
    rewrite (bind_ok _ _ _ _ _ C3), (bind_ok _ _ _ _ _ C4).
    rewrite (bind_ok _ _ _ _ _ (call_dropout_eval _ self g Htr)).
    rewrite (bind_ok _ _ _ _ _ (call_dropout_eval _ self g Htr)).
    now rewrite (bind_ok _ _ _ _ _ C5), (bind_ok _ _ _ _ _ C6). }
  rewrite (bind_ok _ _ _ _ _ Ep). cbn [fst snd]. rewrite classify_run.
  simpl. now rewrite C7.
Qed.

End BatchIndependence.

(** ** The step functions: what they log and what they leave alone *)

Section StepFrame.
Context `{Backend}.

Lemma call_model_frame {A} (m : M (DpsaModel * generator) A) (s : Harness) :
  logged (snd (call_model m s)) = logged s /\
  same_settings (module s) (module (snd (call_model m s))).
Proof.
  unfold call_model, zoom. destruct (m _) as [r [m' g']]. simpl.
  split; [reflexivity|]. now repeat split.
Qed.

Lemma _metric_forward_frame (batch : Batch) (s : Harness) :
  logged (snd (_metric_forward batch s)) = logged s /\
  same_settings (module s) (module (snd (_metric_forward batch s))).
Proof.
  unfold _metric_forward, bind.
  pose proof (call_model_frame
                (forward (premise_input_ids batch) (premise_attention_mask batch)
                   (hypothesis_input_ids batch) (hypothesis_attention_mask batch)) s)
    as Hf.
  destruct (call_model _ s) as [[logits|e] s1]; simpl in *; [|exact Hf].
  unfold lift_result, ret.
  destruct (cross_entropy logits (label batch)); simpl; [|exact Hf].
  destruct (batch_accuracy logits (label batch)); simpl; exact Hf.
Qed.

(** X5: each of the three step functions logs exactly one dictionary,
    the one it returns, when it succeeds, and logs nothing when it
    raises; in both cases the learning rate, the factor, the patience
    and the optimizer name of the module are what they were. *)
Theorem step_logs_once step (batch : Batch) (batch_idx : nat) (s : Harness) :
  In step step_functions ->
  match step batch batch_idx s with
  | (Ok output, s') => logged s' = logged s ++ [output]
  | (Raise e, s') => logged s' = logged s
  end /\
  same_settings (module s) (module (snd (step batch batch_idx s))).
Proof.
  intros Hstep. pose proof (_metric_forward_frame batch s) as [Hlog Hset].
  destruct Hstep as [<-|[<-|[<-|[]]]];
    unfold training_step, validation_step, test_step, bind;
    destruct (_metric_forward batch s) as [[[loss accuracy]|e] s1]; simpl in *;
    (split; [congruence|exact Hset]).
Qed.

Hypothesis encoder_keeps_stack :
  forall tr ids mask s g, fst (snd (encoder_forward tr ids mask (s, g))) = s.
Hypothesis decoder_keeps_stack :
  forall tr x y mask s g, fst (snd (decoder_forward tr x y mask (s, g))) = s.

Lemma forward_keeps_model p pm h hm : preserves_model (forward p pm h hm).
Proof.
  assert (Hbase : forall ids mask, preserves_model (call_base_model ids mask)).
  { intros ids mask [self g]. unfold call_base_model, zoom. simpl.
    pose proof (encoder_keeps_stack (training self) ids mask (base_model self) g) as E.
    destruct (encoder_forward _ _ _ _) as [r [s' g']]. simpl in *. subst.
    apply set_base_model_same. }
  assert (Hcross : forall x y mask, preserves_model (call_cross_model x y mask)).
  { intros x y mask [self g]. unfold call_cross_model, zoom. simpl.
    pose proof (decoder_keeps_stack (training self) x y mask (cross_model self) g) as E.
    destruct (decoder_forward _ _ _ _ _) as [r [s' g']]. simpl in *. subst.
    apply set_cross_model_same. }
  unfold forward, pooler.
  repeat first
    [ apply preserves_bind; [|intros ?]
    | apply Hbase | apply Hcross
    | apply preserves_with_generator
    | apply preserves_lift_result
    | apply preserves_ret ].
Qed.

Lemma set_model_same (m : DpsaLightningModule) : set_model (model m) m = m.
Proof. now destruct m. Qed.

Lemma _metric_forward_keeps_module (batch : Batch) (s : Harness) :
  module (snd (_metric_forward batch s)) = module s.
Proof.
  unfold _metric_forward, bind, call_model, zoom.
  pose proof (forward_keeps_model (premise_input_ids batch) (premise_attention_mask batch)
                (hypothesis_input_ids batch) (hypothesis_attention_mask batch)
                (model (module s), rng s)) as Hm.
  destruct (forward _ _ _ _ _) as [[logits|e] [m' g']]; simpl in *; subst m';
    [|apply set_model_same].
  unfold lift_result, ret.
  destruct (cross_entropy logits (label batch)); simpl; [|apply set_model_same].
  destruct (batch_accuracy logits (label batch)); simpl; apply set_model_same.
Qed.

(** X6: provided the stacks' forward passes leave their stack as it
    was, a step function, returning or raising, leaves the whole module
    as it was: model parameters and settings.  Only the generator and
    the log change; the parameters are updated outside the steps. *)
Theorem step_keeps_module step (batch : Batch) (batch_idx : nat) (s : Harness) :
  In step step_functions ->
  module (snd (step batch batch_idx s)) = module s.
Proof.
  intros Hstep. pose proof (_metric_forward_keeps_module batch s) as Hm.
  destruct Hstep as [<-|[<-|[<-|[]]]];
    unfold training_step, validation_step, test_step, bind;
    destruct (_metric_forward batch s) as [[[loss accuracy]|e] s1]; simpl in *;
    exact Hm.
Qed.

End StepFrame.

(** ** Accuracy as a hit rate *)

Section HitRate.
Context `{Backend}.

(** [ltb] orders the scalars as in the accuracy section above. *)
Hypothesis ltb_irrefl : forall x : scalar, ltb x x = false.
Hypothesis ltb_trans :
  forall x y z : scalar, ltb x y = true -> ltb y z = true -> ltb x z = true.
Hypothesis ltb_incomparable_trans :
  forall x y z : scalar, ltb x y = false -> ltb y z = false -> ltb x z = false.

(** Counting in the scalars is exact (as it is for floating-point
    numbers up to the size of the mantissa). *)
Hypothesis of_nat_zero : of_nat 0 = (zero : scalar).
Hypothesis add_one : forall k, add (of_nat k) one = (of_nat (S k) : scalar).
Hypothesis add_zero : forall k, add (of_nat k) zero = (of_nat k : scalar).

Lemma fold_hits (prediction : list nat) (labels : IntTensor1) (k : nat) :
  fold_left add (hit_indicator prediction labels) (of_nat k : scalar) =
  of_nat (k + count_hits prediction labels).
Proof.
  revert labels k. induction prediction as [|p ps IH]; intros [|l ls] k;
    try (cbn; now rewrite Nat.add_0_r).
  unfold hit_indicator, count_hits in *. cbn [zip_with combine fold_left].
  rewrite filter_cons. cbn [fst snd].
  destruct (decide (Z.of_nat p = l)) as [Heq|Hne].
  - rewrite add_one, IH. cbn [length]. f_equal. lia.
  - rewrite add_zero, IH. reflexivity.
Qed.

Lemma count_hits_le (prediction : list nat) (labels : IntTensor1) :
  count_hits prediction labels <= length prediction.
Proof.
  unfold count_hits.
  etransitivity; [apply length_filter|]. rewrite length_combine. lia.
Qed.

(** X7: with exact counting in the scalars, the accuracy of a batch is
    the number of examples whose first maximal logit position is the
    label, divided by the batch size; the number of hits never exceeds
    the batch size. *)
Theorem batch_accuracy_hit_rate (logits : Tensor2 scalar) (labels : IntTensor1) :
  length logits = length labels ->
  Forall (fun row => row <> []) logits ->
  exists prediction,
    Forall2 first_argmax logits prediction /\
    torch_argmax logits = Ok prediction /\
    batch_accuracy logits labels =
      Ok (div (of_nat (count_hits prediction labels)) (of_nat (length logits))) /\
    count_hits prediction labels <= length logits.
Proof.
  intros Hlen Hrows.
  destruct (torch_argmax_spec ltb_irrefl ltb_trans ltb_incomparable_trans
              logits Hrows) as (prediction & E & Hfirst).
  pose proof (Forall2_length _ _ _ Hfirst) as Hp.
  exists prediction. split; [exact Hfirst|]. split; [exact E|]. split.
  - unfold batch_accuracy. rewrite E. simpl. unfold tensor_eq.
    replace (Nat.eqb _ _) with true by (symmetry; apply Nat.eqb_eq; lia).
    simpl. unfold tensor_mean. rewrite tensor_float_hits. f_equal. f_equal.
    + unfold tensor_sum. rewrite <- of_nat_zero. now rewrite fold_hits.
    + f_equal. unfold hit_indicator. rewrite length_zip_with. lia.
  - rewrite Hp. apply count_hits_le.
Qed.

End HitRate.

(** ** Building the harness and asking it for its optimizers *)

Section HarnessConstruction.
Context `{Backend}.

(** X8: constructing the harness fails exactly as constructing the
    model does, with the same exception; when the model is built, the
    module holds it, and for an accepted learning rate and factor
    [configure_optimizers] on the new module returns an [Adam] optimizer
    over that model with the given learning rate and a scheduler on
    that optimizer with the given factor and patience, whatever
    optimizer name was passed. *)
Theorem DpsaLightningModule_init_configures model_name pivot d n c
    (lr factor : scalar) (patience : nat) (name : string) (g : generator) :
  match DpsaModel_init model_name pivot d n c g with
  | (Raise e, g') =>
      DpsaLightningModule_init model_name pivot d n c lr factor patience name g
        = (Raise e, g')
  | (Ok m, g') =>
      exists self,
        DpsaLightningModule_init model_name pivot d n c lr factor patience name g
          = (Ok self, g') /\
        model self = m /\
        (leb zero lr = true -> leb one factor = false ->
         exists output optimizer scheduler,
           configure_optimizers self = Ok output /\
           output !! "optimizer"%string = Some (OptimizerValue optimizer) /\
           output !! "lr_scheduler"%string = Some (SchedulerValue scheduler) /\
           optimizer_cls optimizer = Adam /\
           optimizer_params optimizer = m /\
           optimizer_lr optimizer = lr /\
           scheduler_optimizer scheduler = optimizer /\
           scheduler_factor scheduler = factor /\
           scheduler_patience scheduler = patience)
  end.
Proof.
  unfold DpsaLightningModule_init.
  destruct (DpsaModel_init model_name pivot d n c g) as [[m|e] g'] eqn:E.
  - eexists. rewrite (bind_ok _ _ _ _ _ E). split; [reflexivity|].
    split; [reflexivity|]. intros Hlr Hf.
    unfold configure_optimizers, configure_optimizers_with. simpl.
    rewrite registry_choice. unfold Optimizer_new, ReduceLROnPlateau_new.
    rewrite Hlr. simpl. rewrite Hf. simpl.
    eexists _, _, _. repeat split.
  - now rewrite (bind_raise _ _ _ _ _ E).
Qed.

End HarnessConstruction.

(** ** Accuracy needs no softmax *)

Section AccuracyInvariance.
Context `{Backend}.



End AccuracyInvariance.

(** ** Right padding and the pooled position *)

Section RightPadding.
Context `{Backend}.

Lemma result_mapM_lookup {A B} (f : A -> result B) l ys i x :
  result_mapM f l = Ok ys -> l !! i = Some x ->
  exists y, ys !! i = Some y /\ f x = Ok y.
Proof.
  revert ys i. induction l as [|x0 l IH]; simpl; intros ys i E Hi.
  - destruct i; discriminate.
  - destruct (f x0) as [y0|e] eqn:E0; [|discriminate].
    destruct (result_mapM f l) as [ys'|e]; [|discriminate].
    inversion E; subst. destruct i as [|i]; simpl in *.
    + inversion Hi; subst. now exists y0.
    + now apply IH.
Qed.

Lemma gru_scan_app w h (xs ys : Tensor2 scalar) :
  gru_scan w h (xs ++ ys) =
  gru_scan w h xs ++ gru_scan w (fold_left (run_cell w) xs h) ys.
Proof.
  revert h. induction xs as [|x xs IH]; intros h; simpl; [reflexivity|].
  now rewrite IH.
Qed.

Lemma gru_scan_len w h (xs : Tensor2 scalar) : length (gru_scan w h xs) = length xs.
Proof.
  revert h. induction xs as [|x xs IH]; intros h; simpl; [reflexivity|]. now rewrite IH.
Qed.

Lemma row_eval_length hs ws (seq : Tensor2 scalar) :
  length (row_eval hs ws seq) = length seq.
Proof.
  unfold row_eval. revert seq. induction ws as [|w ws IH]; intros seq; simpl.
  - reflexivity.
  - now rewrite IH, gru_scan_len.
Qed.

(** The reducer is causal: what it outputs on the positions of a
    sequence does not depend on what follows the sequence. *)
Lemma row_eval_prefix hs ws (seq pad : Tensor2 scalar) :
  take (length seq) (row_eval hs ws (seq ++ pad)) = row_eval hs ws seq.
Proof.
  unfold row_eval. revert seq pad. induction ws as [|w ws IH]; intros seq pad; simpl.
  - now rewrite take_app_length.
  - rewrite gru_scan_app.
    rewrite <- (gru_scan_len w (repeat zero hs) seq) at 1. apply IH.
Qed.

Lemma gru_eval_output_rows hs ws (x : Tensor3 scalar) :
  gru_eval_output hs ws x = map (row_eval hs ws) x.
Proof.
  unfold gru_eval_output, row_eval. revert x.
  induction ws as [|w ws IH]; intros x; simpl.
  - now rewrite map_id.
  - rewrite IH. unfold gru_layer. now rewrite map_map.
Qed.

Lemma call_reducer_eval_form (self : DpsaModel) (g : generator) (x : Tensor3 scalar)
    out h_n :
  training self = false ->
  fst (call_reducer x (self, g)) = Ok (out, h_n) ->
  out = map (row_eval (gru_hidden_size (reducer self)) (gru_weights (reducer self))) x.
Proof.
  intros Htr. unfold call_reducer. rewrite with_generator_run. simpl.
  unfold GRU_forward. rewrite Htr. destruct (gru_input_ok _ x); [|discriminate].
  destruct (gru_layers_eval_run (gru_dropout (reducer self))
              (gru_hidden_size (reducer self)) (gru_weights (reducer self)) x g)
    as (h_n' & E).
  rewrite E. simpl. intros Eq. inversion Eq; subst. apply gru_eval_output_rows.
Qed.

(** X10: in evaluation mode, when every sequence of a batch is extended
    on the right by padding positions, the vector that the unpadded
    batch pools is found in the padded run's reducer output at the last
    content position of each row (index [length seq - 1]), whereas the
    pooled output reads the last padded position. *)
Theorem pooler_right_padding (self : DpsaModel) (g : generator)
    (x pads : Tensor3 scalar) pooled out' h_n' :
  training self = false ->
  length pads = length x ->
  fst (pooler x (self, g)) = Ok pooled ->
  fst (call_reducer (zip_with (fun seq pad => seq ++ pad) x pads) (self, g))
    = Ok (out', h_n') ->
  forall i seq, x !! i = Some seq ->
    exists o v,
      out' !! i = Some o /\ pooled !! i = Some v /\
      o !! (length seq - 1) = Some v.
Proof.
  intros Htr Hlen Hpool Hred i seq Hi.
  apply (call_reducer_eval_form _ _ _ _ _ Htr) in Hred. subst out'.
  rewrite pooler_eval_form in Hpool by exact Htr.
  destruct (gru_input_ok _ x); [|discriminate].
  rewrite gru_eval_output_rows in Hpool. unfold select_last in Hpool.
  set (hs := gru_hidden_size (reducer self)) in *.
  set (ws := gru_weights (reducer self)) in *.
  assert (Hrow : map (row_eval hs ws) x !! i = Some (row_eval hs ws seq))
    by (now rewrite lookup_map, Hi).
  destruct (result_mapM_lookup _ _ _ _ _ Hpool Hrow) as (v & Hv & Hlast).
  destruct (last (row_eval hs ws seq)) as [v'|] eqn:El; [|discriminate].
  inversion Hlast; subst v'.
  assert (Hpad : exists pad, pads !! i = Some pad).
  { apply lookup_lt_is_Some. rewrite Hlen. now apply lookup_lt_Some in Hi. }
  destruct Hpad as (pad & Hp).
  exists (row_eval hs ws (seq ++ pad)), v. split; [|split; [exact Hv|]].
  - rewrite lookup_map, lookup_zip_with, Hi. simpl. now rewrite Hp.
  - rewrite last_lookup, row_eval_length in El.
    rewrite <- (row_eval_prefix hs ws seq pad) in El.
    replace (length seq - 1) with (pred (length seq)) by lia.
    destruct seq as [|s0 seq'].
    + simpl in El. discriminate.
    + rewrite lookup_take_lt in El by (simpl; lia). exact El.
Qed.

End RightPadding.

(** ** Evaluation mode: the dropout rates do not matter *)

Section DropoutBlind.
Context `{Backend}.

Lemma dropout_blind_bind {A B} (m : M (DpsaModel * generator) A)
    (k : A -> M (DpsaModel * generator) B) :
  dropout_blind m -> (forall a, dropout_blind (k a)) -> dropout_blind (bind m k).
Proof.
  intros Hm Hk w w' Hw. unfold bind. destruct (Hm w w' Hw) as [Hr Hs].
  destruct (m w) as [r s], (m w') as [r' s']. simpl in *. subst r'.
  destruct r as [a|e]; [now apply Hk|]. now split.
Qed.

Lemma dropout_blind_ret {A} (a : A) : dropout_blind (ret a).
Proof. now intros w w' Hw. Qed.

Lemma dropout_blind_lift_result {A} (r : result A) : dropout_blind (lift_result r).
Proof. now intros w w' Hw. Qed.

Lemma dropout_blind_call_base_model ids mask : dropout_blind (call_base_model ids mask).
Proof.
  intros [self g] [self' g'] ((Hb & Hc & Hl & Ht & Hi & Hh & Hws) & Htr & Hg).
  simpl in *. subst g'. unfold call_base_model, zoom. simpl. rewrite Hb, Ht.
  destruct (encoder_forward _ _ _ _) as [r [s1 g1]]. simpl.
  split; [reflexivity|]. now repeat split.
Qed.

Lemma dropout_blind_call_cross_model x y mask :
  dropout_blind (call_cross_model x y mask).
Proof.
  intros [self g] [self' g'] ((Hb & Hc & Hl & Ht & Hi & Hh & Hws) & Htr & Hg).
  simpl in *. subst g'. unfold call_cross_model, zoom. simpl. rewrite Hc, Ht.
  destruct (decoder_forward _ _ _ _ _) as [r [s1 g1]]. simpl.
  split; [reflexivity|]. now repeat split.
Qed.

Lemma dropout_blind_call_dropout x : dropout_blind (call_dropout x).
Proof.
  intros [self g] [self' g'] (Hs & Htr & Hg). simpl in *. subst g'.
  assert (Htr' : training self' = false) by (destruct Hs as (_ & _ & _ & Ht & _); congruence).
  rewrite (call_dropout_eval x self g Htr), (call_dropout_eval x self' g Htr').
  split; [reflexivity|]. split; [exact Hs|]. now split.
Qed.

Lemma gru_layers_eval_rate p p' hs ws x g :
  gru_layers p false hs ws x g = gru_layers p' false hs ws x g.
Proof.
  revert x. induction ws as [|w ws IH]; intros x; [reflexivity|].
  destruct ws as [|w' ws']; [reflexivity|].
  change (gru_layers p false hs (w :: w' :: ws') x g) with
    (bind (gru_layers p false hs (w' :: ws') (gru_layer w hs x))
       (fun r => match r with
                 | (out, h_n) => ret (out, gru_final hs (gru_layer w hs x) :: h_n)
                 end) g).
  change (gru_layers p' false hs (w :: w' :: ws') x g) with
    (bind (gru_layers p' false hs (w' :: ws') (gru_layer w hs x))
       (fun r => match r with
                 | (out, h_n) => ret (out, gru_final hs (gru_layer w hs x) :: h_n)
                 end) g).
  unfold bind. now rewrite IH.
Qed.

Lemma dropout_blind_call_reducer x : dropout_blind (call_reducer x).
Proof.
  intros [self g] [self' g'] (Hs & Htr & Hg). simpl in *. subst g'.
  pose proof Hs as (Hb & Hc & Hl & Ht & Hi & Hh & Hws).
  unfold call_reducer. rewrite !with_generator_run. simpl.
  unfold GRU_forward. rewrite Hi, Hh, Hws, Ht, Htr.
  destruct (gru_input_ok _ x).
  - rewrite (gru_layers_eval_rate (gru_dropout (reducer self'))
               (gru_dropout (reducer self))).
    split; [reflexivity|]. split; [exact Hs|]. now split.
  - split; [reflexivity|]. split; [exact Hs|]. now split.
Qed.

Lemma dropout_blind_call_linear x : dropout_blind (call_linear x).
Proof.
  intros [self g] [self' g'] (Hs & Htr & Hg). cbn [fst snd] in *. subst g'.
  pose proof Hs as (Hb & Hc & Hl & Ht & Hi & Hh & Hws).
  unfold call_linear. rewrite !with_generator_run. simpl. rewrite Hl.
  split; [reflexivity|]. split; [exact Hs|]. now split.
Qed.

Lemma dropout_blind_pooler x : dropout_blind (pooler x).
Proof.
  unfold pooler. apply dropout_blind_bind; [apply dropout_blind_call_reducer|].
  intros out. apply dropout_blind_lift_result.
Qed.

(** X11: in evaluation mode the two dropout rates have no effect: two
    models that differ in them only return the same result (logits or
    exception) and leave the same generator, whatever the stacks do. *)
Theorem forward_eval_ignores_dropout p pm h hm (self self' : DpsaModel) (g : generator) :
  training self = false ->
  same_but_dropout self self' ->
  fst (forward p pm h hm (self', g)) = fst (forward p pm h hm (self, g)) /\
  snd (snd (forward p pm h hm (self', g))) = snd (snd (forward p pm h hm (self, g))).
Proof.
  intros Htr Hs.
  assert (Hf : dropout_blind (forward p pm h hm)).
  { unfold forward.
    repeat first
      [ apply dropout_blind_pooler
      | apply dropout_blind_bind; [|intros ?]
      | apply dropout_blind_call_base_model | apply dropout_blind_call_cross_model
      | apply dropout_blind_call_dropout | apply dropout_blind_call_linear
      | apply dropout_blind_lift_result | apply dropout_blind_ret ]. }
  destruct (Hf (self, g) (self', g)) as [Hr (_ & _ & Hg)];
    [split; [exact Hs|split; [exact Htr|reflexivity]]|].
  split; [exact Hr|exact Hg].
Qed.

End DropoutBlind.

(** ** The further properties on the executable backend *)

Section ToyStacks.
Import Toy.

Lemma result_mapM_length {A B} (f : A -> result B) l ys :
  result_mapM f l = Ok ys -> length ys = length l.
Proof.
  revert ys. induction l as [|x l IH]; simpl; intros ys E.
  - now inversion E.
  - destruct (f x) as [y|e]; [|discriminate].
    destruct (result_mapM f l) as [ys'|e]; [|discriminate].
    inversion E; subst. simpl. f_equal. now apply IH.
Qed.

Lemma combine_app_eq {A B} (a1 a2 : list A) (b1 b2 : list B) :
  length b1 = length a1 ->
  combine (a1 ++ a2) (b1 ++ b2) = combine a1 b1 ++ combine a2 b2.
Proof.
  revert b1. induction a1 as [|x a1 IH]; intros [|y b1] Hl; simpl in *;
    try discriminate; [reflexivity|].
  f_equal. apply IH. lia.
Qed.

Lemma broadcast_same {A B} (a : list A) (b : list B) :
  length b = length a -> broadcast a b = Ok (combine a b).
Proof.
  intros Hl. unfold broadcast.
  replace (Nat.eqb _ _) with true by (symmetry; apply Nat.eqb_eq; lia).
  reflexivity.
Qed.

Lemma toy_encoder_batch ids mask (s : Stack Q) (g : list bool) r :
  length mask = length ids ->
  fst (toy_encoder false ids mask (s, g)) = Ok r -> length r = length ids.
Proof.
  intros Hl. unfold toy_encoder. simpl. rewrite (broadcast_same _ _ Hl). simpl.
  intros E. apply result_mapM_length in E. rewrite E, length_combine. lia.
Qed.

Lemma toy_encoder_batchwise (s : Stack Q) (g : list bool) ids1 m1 ids2 m2 r1 r2 :
  length m1 = length ids1 -> length m2 = length ids2 ->
  fst (toy_encoder false ids1 m1 (s, g)) = Ok r1 ->
  fst (toy_encoder false ids2 m2 (s, g)) = Ok r2 ->
  fst (toy_encoder false (ids1 ++ ids2) (m1 ++ m2) (s, g)) = Ok (r1 ++ r2).
Proof.
  intros H1 H2. unfold toy_encoder. simpl.
  rewrite (broadcast_same _ _ H1), (broadcast_same _ _ H2).
  rewrite broadcast_same by (rewrite !length_app; lia).
  simpl. rewrite (combine_app_eq _ _ _ _ H1). apply result_mapM_app.
Qed.

Lemma toy_decoder_batchwise (s : Stack Q) (g : list bool)
    (x1 y1 : list (list (list Q))) m1 (x2 y2 : list (list (list Q))) m2 r1 r2 :
  length y1 = length x1 -> length m1 = length x1 ->
  length y2 = length x2 -> length m2 = length x2 ->
  fst (toy_decoder false x1 y1 m1 (s, g)) = Ok r1 ->
  fst (toy_decoder false x2 y2 m2 (s, g)) = Ok r2 ->
  fst (toy_decoder false (x1 ++ x2) (y1 ++ y2) (m1 ++ m2) (s, g)) = Ok (r1 ++ r2).
Proof.
  intros Hy1 Hm1 Hy2 Hm2. unfold toy_decoder. simpl.
  assert (Hk1 : length m1 = length y1) by lia.
  assert (Hk2 : length m2 = length y2) by lia.
  rewrite (broadcast_same _ _ Hk1), (broadcast_same _ _ Hk2).
  rewrite (broadcast_same (y1 ++ y2)) by (rewrite !length_app; lia).
  simpl. rewrite (combine_app_eq _ _ _ _ Hk1).
  rewrite (broadcast_same x1) by (rewrite length_combine; lia).
  rewrite (broadcast_same x2) by (rewrite length_combine; lia).
  rewrite (broadcast_same (x1 ++ x2))
    by (rewrite !length_app, !length_combine; lia).
  simpl. rewrite combine_app_eq by (rewrite length_combine; lia).
  apply result_mapM_app.
Qed.

Lemma toy_GRU_init_sizes input hidden n (p : Q) (g : list bool) r g' :
  GRU_init (Backend := backend) input hidden n p g = (Ok r, g') ->
  gru_input_size r = input /\ gru_hidden_size r = hidden /\
  length (gru_weights r) = n.
Proof.
  simpl. unfold ret. intros E. inversion E; subst. simpl.
  now rewrite repeat_length.
Qed.

Lemma toy_Linear_init_sizes n_in n_out (g : list bool) l g' :
  Linear_init (Backend := backend) n_in n_out g = (Ok l, g') ->
  in_features l = n_in /\ length (weight l) = n_out /\ length (bias l) = n_out.
Proof.
  simpl. unfold ret. intros E. inversion E; subst. simpl.
  now rewrite !repeat_length.
Qed.

Lemma Qred_integer (z : Z) : Qred (z # 1) = (z # 1)%Q.
Proof. apply Qred_identity. simpl. apply Z.gcd_1_r. Qed.

Lemma toy_add_one (k : nat) :
  add (Scalar := Q_scalar) (of_nat k) one = of_nat (S k).
Proof.
  change (Qred (inject_Z (Z.of_nat k) + 1) = inject_Z (Z.of_nat (S k))).
  transitivity (Qred (inject_Z (Z.of_nat (S k)))); [|apply Qred_integer].
  apply Qred_complete. rewrite Nat2Z.inj_succ. unfold Z.succ.
  now rewrite inject_Z_plus.
Qed.

Lemma toy_add_zero (k : nat) :
  add (Scalar := Q_scalar) (of_nat k) zero = of_nat k.
Proof.
  change (Qred (inject_Z (Z.of_nat k) + 0) = inject_Z (Z.of_nat k)).
  transitivity (Qred (inject_Z (Z.of_nat k))); [|apply Qred_integer].
  apply Qred_complete. apply Qplus_0_r.
Qed.


End ToyStacks.

Section ToyRunsFurther.
Import Toy.

Let eval_world : DpsaModel * generator := (toy_model false, []).

Lemma forward_eval_deterministic_witness :
  forward premise_ids premise_mask hypothesis_ids hypothesis_mask
          (toy_model false, keep_bits)
  = (fst (forward premise_ids premise_mask hypothesis_ids hypothesis_mask
                  (toy_model false, [])),
     (toy_model false, keep_bits)).
Proof.
  exact (proj1 (forward_eval_deterministic (H := backend)
                  toy_encoder_pure toy_decoder_pure
                  premise_ids premise_mask hypothesis_ids hypothesis_mask
                  (toy_model false) keep_bits [] eq_refl)).
Defined.

Lemma forward_returns_logits_witness :
  well_formed_head (toy_model false) 1 2 /\
  exists logits,
    fst (forward premise_ids premise_mask hypothesis_ids hypothesis_mask eval_world)
      = Ok logits /\
    shape2 logits 2 2.
Proof.
  assert (Hwf : well_formed_head (toy_model false) 1 2)
    by (unfold well_formed_head; simpl; repeat split; discriminate).
  split; [exact Hwf|].
  assert (E : fst (dropped_states premise_ids premise_mask hypothesis_ids
                     hypothesis_mask eval_world)
              = Ok ([[[16]; [17]; [18]]; [[13]; [14]; [9]]],
                    [[[13]; [14]]; [[18]; [9]]])%Q)
    by (vm_compute; reflexivity).
  destruct (forward_returns_logits (H := backend) toy_cell_length toy_dropout_shape
              premise_ids premise_mask hypothesis_ids hypothesis_mask eval_world _
              _ _ 2 3 2 1 2 Hwf (run_split _ _ _ E)
              ltac:(split; [reflexivity|repeat constructor]) ltac:(lia)
              ltac:(split; [reflexivity|repeat constructor]) ltac:(lia))
    as (logits & g' & Ef & Hs).
  exists logits. split; [exact (f_equal fst Ef)|exact Hs].
Defined.

Lemma DpsaModel_init_well_formed_witness :
  DpsaModel_init "toy-4" 2 (1 # 2)%Q 2 3 [] = (Ok built_model, []) /\
  well_formed_head built_model 1 3 /\
  training built_model = true.
Proof.
  assert (E : DpsaModel_init "toy-4" 2 (1 # 2)%Q 2 3 [] = (Ok built_model, []))
    by reflexivity.
  split; [exact E|].
  destruct (DpsaModel_init_well_formed (H := backend)
              toy_GRU_init_sizes toy_Linear_init_sizes
              "toy-4" 2 (1 # 2)%Q 2 3 [] built_model [] ltac:(lia) E)
    as (config & Hc & Hwf & _ & Htr).
  assert (Hcfg : config = {| hidden_size := 1 |})
    by (vm_compute in Hc; now inversion Hc).
  subst config. split; [exact Hwf|exact Htr].
Defined.

Lemma forward_batch_independent_witness :
  forward ([[1; 2; 3]] ++ [[4; 5; 6]])%Z ([[1; 1; 1]] ++ [[1; 1; 0]])%Z
          ([[7; 8]] ++ [[9; 10]])%Z ([[1; 1]] ++ [[1; 0]])%Z eval_world
  = (Ok ([[100; 40]] ++ [[76; 45]])%Q, eval_world).
Proof.
  apply (forward_batch_independent (H := backend)
           toy_encoder_pure toy_decoder_pure
           toy_encoder_batch toy_encoder_batchwise toy_decoder_batchwise);
    try reflexivity; vm_compute; reflexivity.
Defined.

Lemma step_logs_once_witness :
  same_settings (module toy_harness)
                (module (snd (validation_step toy_batch 0 toy_harness))).
Proof.
  exact (proj2 (step_logs_once (H := backend) validation_step toy_batch 0 toy_harness
                  (or_intror (or_introl eq_refl)))).
Defined.

Lemma step_keeps_module_witness :
  module (snd (training_step toy_batch 0 toy_harness)) = module toy_harness.
Proof.
  exact (step_keeps_module (H := backend)
           (fun _ _ _ _ _ => eq_refl) (fun _ _ _ _ _ _ => eq_refl)
           training_step toy_batch 0 toy_harness (or_introl eq_refl)).
Defined.

Lemma batch_accuracy_hit_rate_witness :
  batch_accuracy (H := backend) example_logits mixed_labels = Ok (1 # 2)%Q /\
  count_hits [0; 2] mixed_labels = 1 /\
  exists prediction,
    Forall2 first_argmax example_logits prediction /\
    torch_argmax example_logits = Ok prediction /\
    batch_accuracy (H := backend) example_logits mixed_labels =
      Ok (div (of_nat (count_hits prediction mixed_labels))
              (of_nat (length example_logits))) /\
    count_hits prediction mixed_labels <= length example_logits.
Proof.
  split; [reflexivity|]. split; [reflexivity|].
  exact (batch_accuracy_hit_rate (H := backend)
           qltb_irrefl qltb_trans qltb_incomparable_trans
           eq_refl toy_add_one toy_add_zero
           example_logits mixed_labels eq_refl
           ltac:(repeat constructor; discriminate)).
Defined.


Lemma pooler_right_padding_witness :
  exists o v,
    ([[[1]; [4]; [10]; [23]]; [[4]; [13]; [28]; [52]]]%Q : list (list (list Q))) !! 0
      = Some o /\
    ([[10]; [28]]%Q : list (list Q)) !! 0 = Some v /\
    o !! (length ([[1]; [2]; [3]]%Q : list (list Q)) - 1) = Some v.
Proof.
  assert (Hpool : fst (pooler hidden_sequence eval_world) = Ok [[10]; [28]]%Q)
    by (vm_compute; reflexivity).
  assert (Hred : fst (call_reducer
                        (zip_with (fun seq pad => seq ++ pad) hidden_sequence padding)
                        eval_world)
                 = Ok ([[[1]; [4]; [10]; [23]]; [[4]; [13]; [28]; [52]]],
                       [[[13]; [24]]; [[23]; [52]]])%Q)
    by (vm_compute; reflexivity).
  exact (pooler_right_padding (H := backend) (toy_model false) [] hidden_sequence
           padding _ _ _ eq_refl eq_refl Hpool Hred 0 [[1]; [2]; [3]]%Q eq_refl).
Defined.

Lemma forward_eval_ignores_dropout_witness :
  fst (forward premise_ids premise_mask hypothesis_ids hypothesis_mask
               (toy_model_rates 0 (9 # 10) false, keep_bits))
  = fst (forward premise_ids premise_mask hypothesis_ids hypothesis_mask
                 (toy_model false, keep_bits)).
Proof.
  exact (proj1 (forward_eval_ignores_dropout (H := backend)
                  premise_ids premise_mask hypothesis_ids hypothesis_mask
                  (toy_model false) (toy_model_rates 0 (9 # 10) false) keep_bits
                  eq_refl
                  ltac:(unfold same_but_dropout; repeat split))).
Defined.

End ToyRunsFurther.
